(** * quicktype: type attributes and the C++ renderer

    A shallow embedding of [TypeAttributes.ts] (attribute kinds, attribute
    bags and their merge) and of the C++ target language renderer (type
    mapping, declarations, and the emitted [from_json]/[to_json]
    functions), followed by the properties proved about them. *)

From Stdlib Require Import String Ascii List ZArith Bool Arith Lia.
From Stdlib Require Import DecimalString DecimalNat.
From Equations Require Import Equations.
From Equations.Prop Require Import Logic.
Import ListNotations.

Set Implicit Arguments.
Set Warnings "-register-all".
Open Scope string_scope.
Open Scope list_scope.

(** * Calls that may throw

    A JavaScript call either returns a value or throws.  [Thrown] carries
    the message of the exception; once thrown, nothing after it runs. *)

Inductive Result (A : Type) : Type :=
| Ok (a : A)
| Thrown (msg : string).
Arguments Ok {A} a.
Arguments Thrown {A} msg.

Definition bindR {A B} (r : Result A) (f : A -> Result B) : Result B :=
  match r with
  | Ok a => f a
  | Thrown msg => Thrown msg
  end.

Definition isThrown {A} (r : Result A) : bool :=
  match r with Ok _ => false | Thrown _ => true end.

Declare Scope result_scope.
Delimit Scope result_scope with result.
Notation "x <- c ;; k" := (bindR c (fun x => k))
  (at level 61, c at next level, right associativity) : result_scope.

(** Modelled from the spec: [panic] of [./Support].  The spec calls the
    failure fatal: it aborts the render, which is what throwing does
    here. *)
Definition panic {A} (message : string) : Result A := Thrown message.

(** * Effects of a callback

    A callback such as [makeDefault] may touch the world around it.  A
    computation over a world [W] takes the world and hands back its result
    and the new world. *)

Definition Eff (W A : Type) : Type := W -> A * W.

Definition retE {W A} (a : A) : Eff W A := fun w => (a, w).

Definition bindE {W A B} (c : Eff W A) (f : A -> Eff W B) : Eff W B :=
  fun w => let (a, w') := c w in f a w'.

Declare Scope eff_scope.
Delimit Scope eff_scope with eff.
Notation "x <- c ;; k" := (bindE c (fun x => k))
  (at level 61, c at next level, right associativity) : eff_scope.

(** Counting the calls of a callback: the world gets a counter that every
    call bumps. *)
Definition counted {W A} (f : Eff W A) : Eff (nat * W) A :=
  fun nw => let (a, w') := f (snd nw) in (a, (S (fst nw), w')).

(** * Immutable's hash of a string

    [hash(s)] of the [immutable] package on a string: the JVM string hash
    on 32-bit integers, folded into 31 bits by [smi].  Characters stand for
    their code units. *)

Definition toInt32 (z : Z) : Z := ((z + 2 ^ 31) mod 2 ^ 32 - 2 ^ 31)%Z.

Definition smi (i32 : Z) : Z :=
  Z.lor (Z.land (Z.shiftr (i32 mod 2 ^ 32) 1) 0x40000000)
        (Z.land i32 (toInt32 0xBFFFFFFF)).

Fixpoint hashStringFrom (h : Z) (s : string) : Z :=
  match s with
  | EmptyString => h
  | String c rest =>
      hashStringFrom (toInt32 (31 * h + Z.of_nat (nat_of_ascii c))) rest
  end.

Definition hashString (s : string) : Z := smi (hashStringFrom 0 s).

Definition hash (s : string) : Z := hashString s.

(** * TypeAttributes.ts *)

(** JavaScript's [===] on the values kept in a bag.  Where it says yes the
    two are one and the same value; two values that are equal need not be
    the same object, so a no tells nothing.  (On numbers [+0 === -0]; the
    two zeros are taken as one value.) *)
Class StrictEquality (T : Type) : Type := {
  strictEquals : T -> T -> bool;
  strictEquals_same : forall a b : T, strictEquals a b = true -> a = b
}.

Section TypeAttributes.

(** The values kept in attribute bags.  The source erases them to [any];
    [T] is the universe they live in, and [undefined] is not one of
    them: a slot holding nothing is an absent slot. *)
Variable T : Type.
Context {strictT : StrictEquality T}.

Record TypeAttributeKind : Type := mkTypeAttributeKind {
  name : string;
  combine : T -> T -> Result T
}.

(** [new TypeAttributeKind(name, combine)]. *)
Definition newTypeAttributeKind (name : string)
    (combine : option (T -> T -> Result T)) : TypeAttributeKind :=
  let combine :=
    match combine with
    | None => fun _ _ => panic ("Cannot combine type attribute " ++ name)%string
    | Some f => f
    end in
  mkTypeAttributeKind name combine.

(** What [equals] may be handed: a kind, or anything else. *)
Inductive JsAny : Type :=
| AKind (k : TypeAttributeKind)
| AOther (v : T).

Definition equals (this : TypeAttributeKind) (other : JsAny) : bool :=
  match other with
  | AOther _ => false
  | AKind other => String.eqb (name this) (name other)
  end.

Definition hashCode (this : TypeAttributeKind) : Z := hash (name this).

(** ** The immutable [Map] keyed by kinds

    A map is its entries; a key is found where the hash codes agree and
    Immutable's [is] (here: [equals]) says yes, so two kind objects of one
    name are one key, whatever their combine functions.  The entry keeps
    the key object it was stored under. *)

Definition TypeAttributes : Type := list (TypeAttributeKind * T).

Definition emptyTypeAttributes : TypeAttributes := [].

Definition sameKey (a b : TypeAttributeKind) : bool :=
  Z.eqb (hashCode a) (hashCode b) && equals a (AKind b).

Fixpoint Map_entry (key : TypeAttributeKind) (m : TypeAttributes)
    : option (TypeAttributeKind * T) :=
  match m with
  | [] => None
  | (k, v) :: rest => if sameKey key k then Some (k, v) else Map_entry key rest
  end.

Definition Map_get (key : TypeAttributeKind) (m : TypeAttributes) : option T :=
  option_map snd (Map_entry key m).

(** [map.set(key, value)].  A new key goes to the end.  On a key already
    there Immutable first asks [entries[idx][1] === value]: where the value
    stored is the very value set, the map is returned as it is, with the
    key object it had; otherwise the entry is replaced, key object
    included. *)
Fixpoint Map_set (key : TypeAttributeKind) (value : T) (m : TypeAttributes)
    : TypeAttributes :=
  match m with
  | [] => [(key, value)]
  | (k, v) :: rest =>
      if sameKey key k then
        if strictEquals v value then (k, v) :: rest
        else (key, value) :: rest
      else (k, v) :: Map_set key value rest
  end.

Fixpoint Map_remove (key : TypeAttributeKind) (m : TypeAttributes)
    : TypeAttributes :=
  match m with
  | [] => []
  | (k, v) :: rest =>
      if sameKey key k then Map_remove key rest
      else (k, v) :: Map_remove key rest
  end.

(** No two entries of a map have the same key. *)
Fixpoint wellFormed (m : TypeAttributes) : bool :=
  match m with
  | [] => true
  | (k, _) :: rest =>
      negb (existsb (fun e => sameKey k (fst e)) rest) && wellFormed rest
  end.

(** [collection.update(key, NOT_SET, existing => existing === NOT_SET ?
    value : merger(existing, value, key))], the step [mergeWith] takes
    for every entry of every map merged in.  The merger gets the key of
    the entry coming in, and the slot is then set under that key; where
    the merged value is the very value already there, [update] and [set]
    both leave the entry alone, key object included, which is what
    [Map_set] does. *)
Definition mergeIntoMap (merger : T -> T -> TypeAttributeKind -> Result T)
    (collection : Result TypeAttributes) (entry : TypeAttributeKind * T)
    : Result TypeAttributes :=
  (collection <- collection ;;
   let (key, value) := entry in
   match Map_get key collection with
   | None => Ok (Map_set key value collection)
   | Some existing =>
       merged <- merger existing value key ;;
       Ok (Map_set key merged collection)
   end)%result.

(** [collection.mergeWith(merger, ...iters)] of Immutable: the entries of
    the maps in [iters], map after map, merged into the collection; a
    merger that throws ends the merge. *)
Definition Map_mergeWith (merger : T -> T -> TypeAttributeKind -> Result T)
    (collection : TypeAttributes) (iters : list TypeAttributes)
    : Result TypeAttributes :=
  fold_left (fun acc iter => fold_left (mergeIntoMap merger) iter acc)
            iters (Ok collection).

(** ** The methods of a kind *)

Definition makeAttributes (this : TypeAttributeKind) (value : T)
    : TypeAttributes :=
  [(this, value)].

Definition tryGetInAttributes (this : TypeAttributeKind) (a : TypeAttributes)
    : option T :=
  Map_get this a.

Definition setInAttributes (this : TypeAttributeKind) (a : TypeAttributes)
    (value : T) : TypeAttributes :=
  Map_set this value a.

Definition modifyInAttributes {W} (this : TypeAttributeKind)
    (a : TypeAttributes) (modify : option T -> Eff W (option T))
    : Eff W TypeAttributes :=
  (modified <- modify (tryGetInAttributes this a) ;;
   match modified with
   | None => retE (Map_remove this a)
   | Some modified => retE (setInAttributes this a modified)
   end)%eff.

(** [makeDefault] takes no argument and returns a [T]; handed to
    [modifyInAttributes] it ignores the slot it is given. *)
Definition setDefaultInAttributes {W} (this : TypeAttributeKind)
    (a : TypeAttributes) (makeDefault : Eff W T) : Eff W TypeAttributes :=
  match tryGetInAttributes this a with
  | Some _ => retE a
  | None =>
      modifyInAttributes this a
        (fun _ => (v <- makeDefault ;; retE (Some v))%eff)
  end.

(** ** combineTypeAttributes *)

(** The merger handed to [mergeWith]: [(aa, ab, kind) => kind.combine(aa,
    ab)]. *)
Definition combineMerger (aa ab : T) (kind : TypeAttributeKind) : Result T :=
  combine kind aa ab.

Definition combineTypeAttributes (attributeArray : list TypeAttributes)
    : Result TypeAttributes :=
  match attributeArray with
  | [] => Ok emptyTypeAttributes
  | first :: rest => Map_mergeWith combineMerger first rest
  end.

(** ** What the merge is measured against

    The entries a kind has across a sequence of bags, in input order, and
    the left fold of the combine functions over them: each value is
    combined by the combine function of the kind object it is stored
    under. *)

Definition entryList (k : TypeAttributeKind) (bag : TypeAttributes)
    : list (TypeAttributeKind * T) :=
  match Map_entry k bag with
  | Some e => [e]
  | None => []
  end.

Definition entriesOf (k : TypeAttributeKind) (bags : list TypeAttributes)
    : list (TypeAttributeKind * T) :=
  flat_map (entryList k) bags.

Definition combineStep (acc : Result T) (e : TypeAttributeKind * T) : Result T :=
  (a <- acc ;; combine (fst e) a (snd e))%result.

Definition combinedValue (k : TypeAttributeKind) (bags : list TypeAttributes)
    : Result (option T) :=
  match entriesOf k bags with
  | [] => Ok None
  | (_, v0) :: rest =>
      (v <- fold_left combineStep rest (Ok v0) ;; Ok (Some v))%result
  end.

(** The slot of one kind while entries are merged in, one after the
    other: empty until a first value arrives, combined from then on. *)
Definition slotStep (slot : Result (option T)) (e : TypeAttributeKind * T)
    : Result (option T) :=
  (s <- slot ;;
   match s with
   | None => Ok (Some (snd e))
   | Some a => v <- combine (fst e) a (snd e) ;; Ok (Some v)
   end)%result.

Definition slotAfter (start : option T) (es : list (TypeAttributeKind * T))
    : Result (option T) :=
  fold_left slotStep es (Ok start).

(** The values of a slot combined left to right by the combine function of
    one kind. *)
Definition combineAll (k : TypeAttributeKind) (values : list T)
    : Result (option T) :=
  match values with
  | [] => Ok None
  | v0 :: rest =>
      (v <- fold_left (fun acc v => a <- acc ;; combine k a v) rest (Ok v0) ;;
       Ok (Some v))%result
  end.

(** The bags that hold a value for a kind. *)
Definition holdersOf (k : TypeAttributeKind) (bags : list TypeAttributes)
    : list TypeAttributes :=
  filter (fun bag => match tryGetInAttributes k bag with
                     | Some _ => true
                     | None => false
                     end) bags.

(** The spec on a kind that cannot be combined: present in more than one
    bag, the merge of the bags is a fatal error. *)
Definition specUncombinableMergeThrows (k : TypeAttributeKind)
    (bags : list TypeAttributes) : Prop :=
  2 <= length (holdersOf k bags) ->
  isThrown (combineTypeAttributes bags) = true.

End TypeAttributes.

Arguments AOther {T} v.
Arguments emptyTypeAttributes {T}.

(** Modelled from the spec: [setUnion] of [./Support], the union of two
    ordered sets of strings; the elements of the second that the first does
    not have follow those of the first. *)
Definition setUnion (a b : list string) : list string :=
  a ++ filter (fun x => negb (existsb (String.eqb x) a)) b.

Definition descriptionTypeAttributeKind : TypeAttributeKind (list string) :=
  newTypeAttributeKind "description" (Some (fun a b => Ok (setUnion a b))).

(** The instances the examples run on: numbers are the same where they are
    equal, and sets of strings are taken as the same where they hold the
    same strings in the same order. *)
Definition sameStrings (a b : list string) : bool :=
  if list_eq_dec string_dec a b then true else false.

#[export] Instance strictEquality_strings : StrictEquality (list string) :=
  {| strictEquals := sameStrings;
     strictEquals_same := fun a b =>
       match list_eq_dec string_dec a b as d
         return (if d then true else false) = true -> a = b with
       | left e => fun _ => e
       | right _ => fun H => False_ind _ (Bool.diff_false_true H)
       end |}.

#[export] Instance strictEquality_nat : StrictEquality nat :=
  {| strictEquals := Nat.eqb;
     strictEquals_same := fun a b H => proj1 (Nat.eqb_eq a b) H |}.


(** * The type graph, names and source text *)

(** Modelled from the spec: the name token of [../Naming], an opaque value
    the naming resolver hands out and the renderer writes out as it is. *)
Inductive Name : Type := NameToken (token : string).

(** Modelled from the spec: the type graph node of [../Type], one of the
    ten kinds the spec lists.  A class or union carries the name token the
    naming resolver gave it; the members of a union are kept in
    first-appearance order. *)
Inductive TypeNode : Type :=
| anyType
| nullType
| boolType
| integerType
| doubleType
| stringType
| arrayType (items : TypeNode)
| classType (named : Name)
| mapType (values : TypeNode)
| unionType (named : Name) (members : list TypeNode).

(** Modelled from the spec: the [kind] tag of a node of [../Type]. *)
Definition kind (t : TypeNode) : string :=
  match t with
  | anyType => "any"
  | nullType => "null"
  | boolType => "bool"
  | integerType => "integer"
  | doubleType => "double"
  | stringType => "string"
  | arrayType _ => "array"
  | classType _ => "class"
  | mapType _ => "map"
  | unionType _ _ => "union"
  end.

(** Modelled from the spec: a property of a class of [../Type], with the
    name token the renderer is handed for it, its JSON key and its type. *)
Record Property : Type := mkProperty {
  propertyName : Name;
  jsonName : string;
  propertyType : TypeNode
}.

(** Modelled from the spec: the class of [../Type], an ordered sequence of
    properties. *)
Record ClassType : Type := mkClassType {
  properties : list Property
}.

(** Modelled from the spec: the two issue annotations of [../Annotation],
    consumed here and not defined. *)
Inductive Annotation : Type :=
| anyTypeIssueAnnotation
| nullTypeIssueAnnotation.

(** Modelled from the spec: the [Sourcelike] of [../Source]: a string, a
    name token, an array of such, or one of them under an annotation. *)
Inductive Sourcelike : Type :=
| SText (s : string)
| SName (n : Name)
| SArray (parts : list Sourcelike)
| SAnnotated (a : Annotation) (sl : Sourcelike).

(** Modelled from the spec: [maybeAnnotated] of [../Source]; [any] and
    [null] are flagged with an issue annotation where issues are asked
    for. *)
Definition maybeAnnotated (doAnnotate : bool) (annotation : Annotation)
    (sl : Sourcelike) : Sourcelike :=
  if doAnnotate then SAnnotated annotation sl else sl.

(** Modelled from the spec: [removeNullFromUnion] and [nullableFromUnion]
    of [../Type].  The first splits the members of a union into whether
    null is among them and the members other than null; the second is the
    sole such member of a union that has null and exactly one other
    member. *)
Definition isNull (t : TypeNode) : bool := String.eqb (kind t) "null".

Definition removeNullFromUnion (members : list TypeNode)
    : bool * list TypeNode :=
  (existsb isNull members, filter (fun m => negb (isNull m)) members).

Definition nullableFromUnion (members : list TypeNode) : option TypeNode :=
  let (hasNull, nonNulls) := removeNullFromUnion members in
  if negb hasNull then None
  else match nonNulls with
       | [t] => Some t
       | _ => None
       end.

Fixpoint typeSize (t : TypeNode) : nat :=
  match t with
  | arrayType items => S (typeSize items)
  | mapType values => S (typeSize values)
  | unionType _ members => S (list_sum (map typeSize members))
  | _ => 1
  end.

(** The double quote, for the string literals of the emitted C++. *)
Definition dquote : string := String (ascii_of_nat 34) EmptyString.

(** [i.toString()] of a count. *)
Definition toString (i : nat) : string := NilEmpty.string_of_uint (Nat.to_uint i).

(** * The renderer's output *)

(** Modelled from the spec: the text a render of [../Renderer] accumulates,
    line by line, each line at the indentation current when it was
    emitted. *)
Inductive SourceLine : Type :=
| Line (indentation : nat) (parts : list Sourcelike)
| BlankLine.

Record RenderState : Type := mkRenderState {
  indentation : nat;
  emitted : list SourceLine
}.

(** A render step: from the state, a value and the new state, or a throw,
    which ends the render with no output. *)
Definition Render (A : Type) : Type := RenderState -> Result (A * RenderState).

Definition retRender {A} (a : A) : Render A := fun st => Ok (a, st).

Definition bindRender {A B} (c : Render A) (f : A -> Render B) : Render B :=
  fun st =>
    match c st with
    | Ok (a, st') => f a st'
    | Thrown msg => Thrown msg
    end.

Declare Scope render_scope.
Delimit Scope render_scope with render.
Notation "x <- c ;; k" := (bindRender c (fun x => k))
  (at level 61, c at next level, right associativity) : render_scope.
Notation "c ;;; k" := (bindRender c (fun _ => k))
  (at level 61, right associativity) : render_scope.

Definition liftResult {A} (r : Result A) : Render A :=
  fun st => match r with Ok a => Ok (a, st) | Thrown msg => Thrown msg end.

(** Modelled from the spec: [emitLine], [emitNewline] and [indent] of
    [../Renderer]: a line of the given parts at the current indentation, an
    empty line, and a body rendered one level deeper. *)
Definition emitLine (lineParts : list Sourcelike) : Render unit :=
  fun st =>
    Ok (tt, mkRenderState (indentation st)
                          (emitted st ++ [Line (indentation st) lineParts])).

Definition emitNewline : Render unit :=
  fun st => Ok (tt, mkRenderState (indentation st) (emitted st ++ [BlankLine])).

Definition indent {A} (f : Render A) : Render A :=
  fun st =>
    match f (mkRenderState (S (indentation st)) (emitted st)) with
    | Ok (a, st') => Ok (a, mkRenderState (indentation st) (emitted st'))
    | Thrown msg => Thrown msg
    end.

(** A loop over a sequence whose body updates the local variables [S] of
    the enclosing function. *)
Fixpoint forEach {A S} (f : S -> A -> Render S) (l : list A) (locals : S)
    : Render S :=
  match l with
  | [] => retRender locals
  | x :: rest => (locals <- f locals x ;; forEach f rest locals)%render
  end.

(** Modelled from the spec: [forEachProperty] of [../ConvenienceRenderer]
    with no blank lines in between; it visits the properties in declared
    order, handing over the property's name token, its JSON key and its
    type. *)
Definition forEachProperty {S} (c : ClassType)
    (f : S -> Name -> string -> TypeNode -> Render S) (locals : S) : Render S :=
  forEach (fun locals p => f locals (propertyName p) (jsonName p) (propertyType p))
          (properties c) locals.

(** * The C++ renderer *)

Section CPlusPlusRenderer.

(** The [namespace] option. *)
Variable _namespaceName : string.

Definition emitBlock {A} (line : Sourcelike) (withSemicolon : bool)
    (f : Render A) : Render A :=
  (emitLine [line; SText " {"] ;;;
   a <- indent f ;;
   (if withSemicolon then emitLine [SText "};"] else emitLine [SText "}"]) ;;;
   retRender a)%render.

Definition emitNamespace {A} (namespaceName : string) (f : Render A) : Render A :=
  emitBlock (SArray [SText "namespace "; SText namespaceName]) false f.

Definition ourQualifier (inJsonNamespace : bool) : Sourcelike :=
  if inJsonNamespace then SArray [SText _namespaceName; SText "::"] else SArray [].

Definition jsonQualifier (inJsonNamespace : bool) : Sourcelike :=
  if inJsonNamespace then SArray [] else SText "nlohmann::".

Equations? cppType (t : TypeNode) (inJsonNamespace withIssues : bool)
    : Sourcelike by wf (typeSize t) lt :=
cppType anyType inJsonNamespace withIssues :=
  maybeAnnotated withIssues anyTypeIssueAnnotation
    (SArray [jsonQualifier inJsonNamespace; SText "json"]);
cppType nullType inJsonNamespace withIssues :=
  maybeAnnotated withIssues nullTypeIssueAnnotation
    (SArray [jsonQualifier inJsonNamespace; SText "json"]);
cppType boolType _ _ := SText "bool";
cppType integerType _ _ := SText "int64_t";
cppType doubleType _ _ := SText "double";
cppType stringType _ _ := SText "std::string";
cppType (arrayType items) inJsonNamespace withIssues :=
  SArray [SText "std::vector<";
          cppType items inJsonNamespace withIssues;
          SText ">"];
cppType (classType named) inJsonNamespace _ :=
  SArray [SText "struct "; ourQualifier inJsonNamespace; SName named];
cppType (mapType values) inJsonNamespace withIssues :=
  SArray [SText "std::map<std::string, ";
          cppType values inJsonNamespace withIssues;
          SText ">"];
cppType (unionType named members) inJsonNamespace withIssues
  with inspect (nullableFromUnion members) := {
  | exist _ None _ => SArray [ourQualifier inJsonNamespace; SName named];
  | exist _ (Some nullable) _ =>
      SArray [SText "boost::optional<";
              cppType nullable inJsonNamespace withIssues;
              SText ">"] }.
Proof.
  assert (Hin : In nullable members).
  { unfold nullableFromUnion, removeNullFromUnion in e.
    destruct (negb (existsb isNull members)); [discriminate|].
    destruct (filter _ members) as [|t0 [|t1 r]] eqn:Ef; try discriminate.
    injection e as e. subst t0.
    assert (H : In nullable (filter (fun m => negb (isNull m)) members))
      by (rewrite Ef; now left).
    apply filter_In in H. tauto. }
  clear e cppType. induction members as [|m ms IH]; [destruct Hin|].
  simpl. destruct Hin as [->|Hin]; [lia|]. specialize (IH Hin). lia.
Qed.

Definition cppTypeInOptional (nonNulls : list TypeNode)
    (inJsonNamespace withIssues : bool) : Sourcelike :=
  match nonNulls with
  | [t] => cppType t inJsonNamespace withIssues
  | _ =>
      let typeList :=
        fold_left
          (fun typeList t =>
             let typeList :=
               if negb (length typeList =? 0)%nat
               then typeList ++ [SText ", "]
               else typeList in
             typeList ++ [cppType t inJsonNamespace withIssues])
          nonNulls [] in
      SArray [SText "boost::variant<"; SArray typeList; SText ">"]
  end.

Definition variantType (u : list TypeNode) (inJsonNamespace : bool)
    : Result Sourcelike :=
  let (hasNull, nonNulls) := removeNullFromUnion u in
  if (length nonNulls <? 2)%nat then Thrown "Variant not needed for less than two types."
  else
    let variant := cppTypeInOptional nonNulls inJsonNamespace true in
    if negb hasNull then Ok variant
    else Ok (SArray [SText "boost::optional<"; variant; SText ">"]).

Definition emitClass (c : ClassType) (className : Name) : Render unit :=
  emitBlock (SArray [SText "struct "; SName className]) true
    (forEachProperty c
       (fun _ name json propertyType =>
          emitLine [cppType propertyType false true; SText " "; SName name; SText ";"])
       tt).

(** [utf16StringEscape] of [../Support]: the renderer is taken over any
    such function. *)
Variable utf16StringEscape : string -> string.

(** What [from_json] of a class emits for one property: the callback
    handed to [forEachProperty]. *)
Definition emitClassFromJsonProperty (name : Name) (json : string) (t : TypeNode)
    : Render unit :=
  let ourQualifier := ourQualifier true in
  let afterUnionCheck :=
    if (kind t =? "null") || (kind t =? "any") then
      emitLine [SText "_x."; SName name; SText " = "; ourQualifier;
                SText ("get_untyped(_j, " ++ dquote)%string;
                SText (utf16StringEscape json);
                SText (dquote ++ ");")%string]
    else
      let cppType := cppType t true false in
      emitLine [SText "_x."; SName name; SText (" = _j.at(" ++ dquote)%string;
                SText (utf16StringEscape json);
                SText (dquote ++ ").get<")%string;
                cppType;
                SText ">();"] in
  match t with
  | unionType _ members =>
      let (hasNull, nonNulls) := removeNullFromUnion members in
      if hasNull then
        emitLine [SText "_x."; SName name; SText " = "; ourQualifier;
                  SText "get_optional<";
                  cppTypeInOptional nonNulls true false;
                  SText (">(_j, " ++ dquote)%string;
                  SText (utf16StringEscape json);
                  SText (dquote ++ ");")%string]
      else afterUnionCheck
  | _ => afterUnionCheck
  end.

(** The body of the emitted [to_json] of a class: the closure handed to
    the second [emitBlock] of [emitClassFunctions]. *)
Definition emitClassToJsonBody (c : ClassType) : Render unit :=
  if (length (properties c) =? 0)%nat then
    emitLine [SText "_j = json::object();"]
  else
    (args <- forEachProperty c
               (fun args name json _ =>
                  let args :=
                    if negb (length args =? 0)%nat then args ++ [SText ", "] else args in
                  retRender (args ++ [SText ("{" ++ dquote)%string;
                                      SText (utf16StringEscape json);
                                      SText (dquote ++ ", _x.")%string;
                                      SName name;
                                      SText "}"]))
               [] ;;
     emitLine [SText "_j = json{"; SArray args; SText "};"])%render.

(** The body of the emitted [from_json] of a class: the closure handed to
    the first [emitBlock] of [emitClassFunctions]. *)
Definition emitClassFromJsonBody (c : ClassType) : Render unit :=
  forEachProperty c (fun _ name json t => emitClassFromJsonProperty name json t) tt.

Definition emitClassFunctions (c : ClassType) (className : Name) : Render unit :=
  let ourQualifier := ourQualifier true in
  (emitBlock
     (SArray [SText "void from_json(const json& _j, struct "; ourQualifier;
              SName className; SText "& _x)"])
     false
     (emitClassFromJsonBody c) ;;;
   emitNewline ;;;
   emitBlock
     (SArray [SText "void to_json(json& _j, const struct "; ourQualifier;
              SName className; SText "& _x)"])
     false
     (emitClassToJsonBody c))%render.

(** Modelled from the spec: [emitMultiline] of [../Renderer] emits the
    lines of a text one by one at the current indentation. *)
Definition emitMultiline (text : list string) : Render unit :=
  forEach (fun _ line => emitLine [SText line]) text tt.

(** The text [emitOptionalHelpers] emits: how a [boost::optional<T>] is
    written to and read from JSON. *)
Definition emitOptionalHelpers : Render unit :=
  emitMultiline
    ["template <typename T>";
     "struct adl_serializer<boost::optional<T>> {";
     "    static void to_json(json& j, const boost::optional<T>& opt) {";
     "        if (opt == boost::none) {";
     "            j = nullptr;";
     "        } else {";
     "            j = *opt; // this will call adl_serializer<T>::to_json which will";
     "            // find the free function to_json in T's namespace!";
     "        }";
     "    }";
     "    ";
     "    static void from_json(const json& j, boost::optional<T>& opt) {";
     "        if (j.is_null()) {";
     "            opt = boost::none;";
     "        } else {";
     "            opt = j.get<T>(); // same as above, but with";
     "            // adl_serializer<T>::from_json";
     "        }";
     "    }";
     "};"].

(** The two helpers [emitSourceStructure] emits into the namespace, the
    second only where there are unions. *)
Definition emitGetUntyped : Render unit :=
  emitMultiline
    [EmptyString;
     "static json get_untyped(const json &j, const char *property) {";
     "    if (j.find(property) != j.end()) {";
     "        return j.at(property).get<json>();";
     "    }";
     "    return json();";
     "}"].

Definition emitGetOptional : Render unit :=
  emitMultiline
    [EmptyString;
     "template <typename T>";
     "static boost::optional<T> get_optional(const json &j, const char *property) {";
     "    if (j.find(property) != j.end()) {";
     "        return j.at(property).get<boost::optional<T>>();";
     "    }";
     "    return boost::optional<T>();";
     "}"].

Definition emitUnionTypedefs (u : list TypeNode) (unionName : Name) : Render unit :=
  (variant <- liftResult (variantType u false) ;;
   emitLine [SText "typedef "; variant; SText " "; SName unionName; SText ";"])%render.

Definition functionForKind : list (string * string) :=
  [("bool", "is_boolean");
   ("integer", "is_number_integer");
   ("double", "is_number");
   ("string", "is_string");
   ("class", "is_object");
   ("map", "is_object");
   ("array", "is_array")].

(** The body of the emitted [from_json] of a union: the closure handed to
    the first [emitBlock] of [emitUnionFunctions].  [onFirst] is its local
    variable. *)
Definition emitUnionFromJsonBody (nonNulls : list TypeNode) : Render unit :=
  (_ <- forEach
          (fun (onFirst : bool) (entry : string * string) =>
             let (kind', func) := entry in
             match find (fun t => kind t =? kind') nonNulls with
             | None => retRender onFirst
             | Some t =>
                 emitLine [SText (if onFirst then "if" else "else if");
                           SText " (_j."; SText func; SText "())"] ;;;
                 indent (emitLine [SText "_x = _j.get<"; cppType t true false;
                                   SText ">();"]) ;;;
                 retRender false
             end)
          functionForKind true ;;
   emitLine [SText ("else throw " ++ dquote ++ "Could not deserialize" ++ dquote ++ ";")%string]
  )%render.

(** The body of the switch in the emitted [to_json] of a union, with its
    counter [i], and the body of that [to_json]: the closures handed to the
    inner and outer [emitBlock]. *)
Definition emitUnionSwitchBody (nonNulls : list TypeNode) : Render unit :=
  (_ <- forEach
          (fun (i : nat) (t : TypeNode) =>
             emitLine [SText "case "; SText (toString i); SText ":"] ;;;
             indent
               (emitLine [SText "_j = boost::get<"; cppType t true false;
                          SText ">(_x);"] ;;;
                emitLine [SText "break;"]) ;;;
             retRender (S i))
          nonNulls 0 ;;
   emitLine [SText ("default: throw " ++ dquote ++ "This should not happen"
                    ++ dquote ++ ";")%string])%render.

Definition emitUnionToJsonBody (nonNulls : list TypeNode) : Render unit :=
  emitBlock (SText "switch (_x.which())") false (emitUnionSwitchBody nonNulls).

Definition emitUnionFunctions (u : list TypeNode) : Render unit :=
  let (_, nonNulls) := removeNullFromUnion u in
  let variantType := cppTypeInOptional nonNulls true false in
  (emitBlock
     (SArray [SText "void from_json(const json& _j, "; variantType; SText "& _x)"])
     false
     (emitUnionFromJsonBody nonNulls) ;;;
   emitNewline ;;;
   emitBlock
     (SArray [SText "void to_json(json& _j, const "; variantType; SText "& _x)"])
     false
     (emitUnionToJsonBody nonNulls))%render.

End CPlusPlusRenderer.

(** * What a render appends

    [Appends r a lines]: from any state, [r] returns [a], leaves the
    indentation as it found it and appends [lines i] to the text, [i] being
    the indentation it was started at. *)

Definition Appends {A} (r : Render A) (a : A) (lines : nat -> list SourceLine)
    : Prop :=
  forall st,
    r st = Ok (a, mkRenderState (indentation st)
                                (emitted st ++ lines (indentation st))).

(** The lines a render emits when started at indentation [i] on an empty
    text; nothing if it throws. *)
Definition linesOf {A} (r : Render A) (i : nat) : list SourceLine :=
  match r (mkRenderState i []) with
  | Ok (_, st) => emitted st
  | Thrown _ => []
  end.

(** The lines of a loop whose body, on locals [s] and element [x], appends
    [lines s x] and leaves the locals [next s x]. *)
Fixpoint loopLines {A S} (next : S -> A -> S)
    (lines : S -> A -> nat -> list SourceLine) (l : list A) (s : S) (i : nat)
    : list SourceLine :=
  match l with
  | [] => []
  | x :: rest => lines s x i ++ loopLines next lines rest (next s x) i
  end.

(** [sep] between any two neighbours of a list. *)
Fixpoint intersperse {A} (sep : A) (l : list A) : list A :=
  match l with
  | [] => []
  | [x] => [x]
  | x :: rest => x :: sep :: intersperse sep rest
  end.

(** * The emitted C++, read back

    What the emitted [from_json] and [to_json] do is a matter of running
    that C++.  The emitted lines are read back into the
    few statement forms the renderer produces, and those are run on a model
    of the JSON values of the [nlohmann::json] library: its type tests, its
    [find]/[at] on objects, and the helpers [get_untyped] and
    [get_optional] whose text the renderer emits. *)

Inductive json : Type :=
| JNull
| JBoolean (b : bool)
| JNumberInteger (z : Z)
| JNumberFloat (bits : Z)
| JString (s : string)
| JArray (items : list json)
| JObject (members : list (string * json)).

Definition is_null (j : json) : bool :=
  match j with JNull => true | _ => false end.
Definition is_boolean (j : json) : bool :=
  match j with JBoolean _ => true | _ => false end.
Definition is_number_integer (j : json) : bool :=
  match j with JNumberInteger _ => true | _ => false end.
Definition is_number (j : json) : bool :=
  match j with JNumberInteger _ | JNumberFloat _ => true | _ => false end.
Definition is_string (j : json) : bool :=
  match j with JString _ => true | _ => false end.
Definition is_object (j : json) : bool :=
  match j with JObject _ => true | _ => false end.
Definition is_array (j : json) : bool :=
  match j with JArray _ => true | _ => false end.

(** The member function of [json] a name in the emitted text stands for. *)
Definition jsonTest (func : string) : option (json -> bool) :=
  if func =? "is_boolean" then Some is_boolean
  else if func =? "is_number_integer" then Some is_number_integer
  else if func =? "is_number" then Some is_number
  else if func =? "is_string" then Some is_string
  else if func =? "is_object" then Some is_object
  else if func =? "is_array" then Some is_array
  else None.

(** [j.find(property)], [None] standing for [j.end()]. *)
Definition json_find (j : json) (property : string) : option json :=
  match j with
  | JObject members =>
      option_map snd (find (fun m => fst m =? property) members)
  | _ => None
  end.

(** [j.at(property)]: throws where there is no such key. *)
Definition json_at (j : json) (property : string) : Result json :=
  match json_find j property with
  | Some v => Ok v
  | None => Thrown "json.at: no such key"
  end.

(** [get_untyped] as [emitGetUntyped] writes it: the value under the key,
    an empty [json()] where the key is missing. *)
Definition get_untyped (j : json) (property : string) : Result json :=
  match json_find j property with
  | Some _ => json_at j property
  | None => Ok JNull
  end.

Section GeneratedCode.

(** The C++ values the mapped types hold, and [j.get<T>()] for the mapped
    type written [T]: it throws where the value does not coerce. *)
Variable V : Type.
Variable get : Sourcelike -> json -> Result V.

(** The string a C++ string literal of the given text denotes. *)
Variable literal : string -> string.

(** [adl_serializer<boost::optional<T>>::from_json] as
    [emitOptionalHelpers] writes it. *)
Definition optional_from_json (T : Sourcelike) (j : json) : Result (option V) :=
  if is_null j then Ok None
  else (x <- get T j ;; Ok (Some x))%result.

(** [get_optional<T>] as [emitGetOptional] writes it. *)
Definition get_optional (T : Sourcelike) (j : json) (property : string)
    : Result (option V) :=
  match json_find j property with
  | Some _ => (v <- json_at j property ;; optional_from_json T v)%result
  | None => Ok None
  end.

(** ** [from_json] of a class: one read per property *)

Inductive PropertyRead : Type :=
| ReadOptional (T : Sourcelike)
| ReadUntyped
| ReadStrict (T : Sourcelike).

Inductive FieldValue : Type :=
| FieldOptional (o : option V)
| FieldUntyped (j : json)
| FieldTyped (v : V).

Definition readOfLine (l : SourceLine) : option (Name * string * PropertyRead) :=
  match l with
  | Line _ [SText a; SName n; SText b; _; SText c; T; SText d; SText key; SText e] =>
      if (a =? "_x.") && (b =? " = ") && (c =? "get_optional<")
         && (d =? ">(_j, " ++ dquote) && (e =? dquote ++ ");")
      then Some (n, key, ReadOptional T) else None
  | Line _ [SText a; SName n; SText b; x4; SText x5; x6; SText e] =>
      if (a =? "_x.") && (b =? " = ") then
        match x6 with
        | SText key =>
            if (x5 =? "get_untyped(_j, " ++ dquote) && (e =? dquote ++ ");")
            then Some (n, key, ReadUntyped) else None
        | _ => None
        end
      else if (a =? "_x.") && (b =? " = _j.at(" ++ dquote) then
        match x4 with
        | SText key =>
            if (x5 =? dquote ++ ").get<") && (e =? ">();")
            then Some (n, key, ReadStrict x6) else None
        | _ => None
        end
      else None
  | _ => None
  end.

Definition runRead (r : PropertyRead) (key : string) (j : json)
    : Result FieldValue :=
  match r with
  | ReadOptional T =>
      (o <- get_optional T j (literal key) ;; Ok (FieldOptional o))%result
  | ReadUntyped =>
      (v <- get_untyped j (literal key) ;; Ok (FieldUntyped v))%result
  | ReadStrict T =>
      (v <- json_at j (literal key) ;; x <- get T v ;; Ok (FieldTyped x))%result
  end.

(** The reads in order; the first that throws ends the function, and no
    record comes out of it. *)
Fixpoint runReads (reads : list (Name * string * PropertyRead)) (j : json)
    : Result (list (Name * FieldValue)) :=
  match reads with
  | [] => Ok []
  | (n, key, r) :: rest =>
      (x <- runRead r key j ;;
       fields <- runReads rest j ;;
       Ok ((n, x) :: fields))%result
  end.

Fixpoint readsOfLines (body : list SourceLine)
    : option (list (Name * string * PropertyRead)) :=
  match body with
  | [] => Some []
  | l :: rest =>
      match readOfLine l, readsOfLines rest with
      | Some r, Some rs => Some (r :: rs)
      | _, _ => None
      end
  end.

Definition runClassFromJson (body : list SourceLine) (j : json)
    : option (Result (list (Name * FieldValue))) :=
  option_map (fun reads => runReads reads j) (readsOfLines body).

(** ** [to_json] of a class: an object literal

    [json::object()] is the empty object; [json{{k1, v1}, ...}], a list of
    pairs each led by a string, is the object of these members. *)

Fixpoint pairsOfArgs (args : list Sourcelike) : option (list (string * Name)) :=
  match args with
  | SText a :: SText key :: SText b :: SName n :: SText c :: rest =>
      if (a =? "{" ++ dquote) && (b =? dquote ++ ", _x.") && (c =? "}") then
        match rest with
        | [] => Some [(key, n)]
        | SText sep :: rest' =>
            if sep =? ", "
            then option_map (cons (key, n)) (pairsOfArgs rest')
            else None
        | _ => None
        end
      else None
  | _ => None
  end.

(** The value the emitted [to_json] leaves in [_j], given what each field
    of [_x] encodes to. *)
Definition runClassToJson (body : list SourceLine) (field : Name -> json)
    : option json :=
  match body with
  | [Line _ [SText s]] =>
      if s =? "_j = json::object();" then Some (JObject []) else None
  | [Line _ [SText a; SArray args; SText b]] =>
      if (a =? "_j = json{") && (b =? "};") then
        option_map
          (fun pairs => JObject (map (fun kn => (literal (fst kn), field (snd kn))) pairs))
          (pairsOfArgs args)
      else None
  | _ => None
  end.

End GeneratedCode.

Arguments FieldOptional {V} o.
Arguments FieldUntyped {V} j.
Arguments FieldTyped {V} v.

(** ** [from_json] of a union: a chain of tests *)

Definition elseThrowLine : string :=
  ("else throw " ++ dquote ++ "Could not deserialize" ++ dquote ++ ";")%string.

(** The branches of the chain, each the name of its test and the type
    written in its [get]; the chain has to end in the [else throw]. *)
Fixpoint branchesOfLines (onFirst : bool) (body : list SourceLine)
    : option (list (string * Sourcelike)) :=
  match body with
  | Line i [SText kw; SText a; SText func; SText b]
      :: Line i' [SText c; T; SText d] :: rest =>
      if (kw =? (if onFirst then "if" else "else if")) && (a =? " (_j.")
         && (b =? "())") && (c =? "_x = _j.get<") && (d =? ">();")
         && (i' =? S i)%nat
      then option_map (cons (func, T)) (branchesOfLines false rest)
      else None
  | [Line _ [SText s]] => if s =? elseThrowLine then Some [] else None
  | _ => None
  end.

(** Running a chain: the first branch whose test holds is taken; with none,
    the [else] throws.  [None] where a test is no member function of
    [json]. *)
Fixpoint runChain {X} (branches : list (string * X)) (j : json)
    : option (Result X) :=
  match branches with
  | [] => Some (Thrown "Could not deserialize")
  | (func, x) :: rest =>
      match jsonTest func with
      | None => None
      | Some test => if test j then Some (Ok x) else runChain rest j
      end
  end.

Definition runUnionFromJson (body : list SourceLine) (j : json)
    : option (Result Sourcelike) :=
  match branchesOfLines true body with
  | Some branches => runChain branches j
  | None => None
  end.

(** ** [to_json] of a union: a switch on [which()] *)

Definition defaultThrowLine : string :=
  ("default: throw " ++ dquote ++ "This should not happen" ++ dquote ++ ";")%string.

(** The cases of the switch, each the ordinal written after [case] and the
    type written in its [boost::get], and whether a default case closes
    the switch. *)
Fixpoint casesOfLines (body : list SourceLine)
    : option (list (string * Sourcelike) * bool) :=
  match body with
  | [] => Some ([], false)
  | Line i [SText a; SText ordinal; SText b]
      :: Line i' [SText c; T; SText d] :: Line i'' [SText e] :: rest =>
      if (a =? "case ") && (b =? ":") && (c =? "_j = boost::get<")
         && (d =? ">(_x);") && (e =? "break;")
         && (i' =? S i)%nat && (i'' =? S i)%nat
      then option_map (fun r => ((ordinal, T) :: fst r, snd r)) (casesOfLines rest)
      else None
  | [Line _ [SText s]] => if s =? defaultThrowLine then Some ([], true) else None
  | _ => None
  end.

(** Running the switch on the ordinal [which] of the alternative held: the
    case of that ordinal encodes through the type of its [boost::get]; with
    no such case the default throws, or, without a default, nothing is
    encoded at all. *)
Definition runSwitch (body : list SourceLine) (which : nat)
    : option (Result (option Sourcelike)) :=
  match casesOfLines body with
  | None => None
  | Some (cases, hasDefault) =>
      match find (fun c => fst c =? toString which) cases with
      | Some (_, T) => Some (Ok (Some T))
      | None =>
          if hasDefault then Some (Thrown "This should not happen")
          else Some (Ok None)
      end
  end.

(** ** The specification's words, as definitions *)

Section SpecWords.

Variable _namespaceName : string.

(** How a property is read, by its type: [any]/[null] untyped, a union
    with null among its members optional, anything else strict. *)
Definition specPropertyRead (t : TypeNode) : PropertyRead :=
  if (kind t =? "any") || (kind t =? "null") then ReadUntyped
  else match t with
       | unionType _ members =>
           if existsb isNull members
           then ReadOptional
                  (cppTypeInOptional _namespaceName
                     (filter (fun m => negb (isNull m)) members) true false)
           else ReadStrict (cppType _namespaceName t true false)
       | _ => ReadStrict (cppType _namespaceName t true false)
       end.

(** The reads of a class: one per property, in declared order, each under
    the escaped JSON key. *)
Definition specClassReads (utf16StringEscape : string -> string) (c : ClassType)
    : list (Name * string * PropertyRead) :=
  map (fun p => (propertyName p, utf16StringEscape (jsonName p),
                 specPropertyRead (propertyType p)))
      (properties c).

(** The pieces of the object literal for one property, and the statement
    the emitted [to_json] of a class consists of. *)
Definition specPairParts (utf16StringEscape : string -> string) (p : Property)
    : list Sourcelike :=
  [SText ("{" ++ dquote)%string; SText (utf16StringEscape (jsonName p));
   SText (dquote ++ ", _x.")%string; SName (propertyName p); SText "}"].

Definition specToJsonParts (utf16StringEscape : string -> string) (c : ClassType)
    : list Sourcelike :=
  match properties c with
  | [] => [SText "_j = json::object();"]
  | _ => [SText "_j = json{";
          SArray (concat (intersperse [SText ", "]
                            (map (specPairParts utf16StringEscape) (properties c))));
          SText "};"]
  end.

(** The members of the object a class encodes to: one per property, in
    declared order, the escaped JSON key paired with the field. *)
Definition specClassPairs (utf16StringEscape : string -> string) (c : ClassType)
    : list (string * Name) :=
  map (fun p => (utf16StringEscape (jsonName p), propertyName p)) (properties c).

End SpecWords.

(** The predicate table of the union decoder in priority order: boolean,
    integer, double, string, object as class, object as map, array.  Each
    entry is a node kind, the name of the test and the test. *)
Record DecodeEntry : Type := mkDecodeEntry {
  entryKind : string;
  entryFunc : string;
  entryTest : json -> bool
}.

Definition predicateTable : list DecodeEntry :=
  [mkDecodeEntry "bool" "is_boolean" is_boolean;
   mkDecodeEntry "integer" "is_number_integer" is_number_integer;
   mkDecodeEntry "double" "is_number" is_number;
   mkDecodeEntry "string" "is_string" is_string;
   mkDecodeEntry "class" "is_object" is_object;
   mkDecodeEntry "map" "is_object" is_object;
   mkDecodeEntry "array" "is_array" is_array].

(** The table cut down to the kinds present among the members, each kind
    bound to its first member. *)
Definition specDecodeBranchesOf (table : list DecodeEntry) (nonNulls : list TypeNode)
    : list (DecodeEntry * TypeNode) :=
  flat_map
    (fun entry =>
       match find (fun t => kind t =? entryKind entry) nonNulls with
       | Some t => [(entry, t)]
       | None => []
       end)
    table.

Definition specDecodeBranches (nonNulls : list TypeNode)
    : list (DecodeEntry * TypeNode) :=
  specDecodeBranchesOf predicateTable nonNulls.

(** The first branch whose test holds of the input. *)
Definition specDecodeBranch (nonNulls : list TypeNode) (j : json)
    : option (DecodeEntry * TypeNode) :=
  find (fun b => entryTest (fst b) j) (specDecodeBranches nonNulls).

(** The member decoded: that of the first branch whose test holds; a hard
    failure where none does. *)
Definition specDecode (nonNulls : list TypeNode) (j : json) : Result TypeNode :=
  match specDecodeBranch nonNulls j with
  | Some b => Ok (snd b)
  | None => Thrown "Could not deserialize"
  end.

(** A line that opens a default case. *)
Definition isDefaultCase (l : SourceLine) : bool :=
  match l with
  | Line _ (SText s :: _) => prefix "default" s
  | _ => false
  end.

(** The emitted text has no default case. *)
Definition specNoDefaultCase (lines : list SourceLine) : Prop :=
  forall l, In l lines -> isDefaultCase l = false.


(** * Issue annotations in source text *)

(** Whether a piece of source text carries an issue annotation
    anywhere. *)
Fixpoint hasAnnotation (sl : Sourcelike) : bool :=
  match sl with
  | SText _ => false
  | SName _ => false
  | SArray parts => existsb hasAnnotation parts
  | SAnnotated _ _ => true
  end.

Definition lineHasAnnotation (l : SourceLine) : bool :=
  match l with
  | Line _ parts => existsb hasAnnotation parts
  | BlankLine => false
  end.

(** * More of the emitted C++, read back *)

(** [adl_serializer<boost::optional<T>>::to_json] as [emitOptionalHelpers]
    writes it: [nullptr] for [boost::none], and otherwise what the value
    held encodes to. *)
Definition optional_to_json {V} (to_json : V -> json) (opt : option V) : json :=
  match opt with
  | None => JNull
  | Some x => to_json x
  end.

(** The JSON a value of a member of the given kind encodes to, in the
    [nlohmann::json] library: a boolean, an integer, a floating-point
    number, a string, an object for a class as for a map, an array. *)
Definition encodedShape (kind : string) (j : json) : bool :=
  if kind =? "bool" then is_boolean j
  else if kind =? "integer" then is_number_integer j
  else if kind =? "double" then
    match j with JNumberFloat _ => true | _ => false end
  else if kind =? "string" then is_string j
  else if (kind =? "class") || (kind =? "map") then is_object j
  else if kind =? "array" then is_array j
  else false.

(** * Sample inputs *)

(** Two bags that both describe their node. *)
Definition sampleBags : list (TypeAttributes (list string)) :=
  [makeAttributes descriptionTypeAttributeKind ["a"];
   makeAttributes descriptionTypeAttributeKind ["b"; "a"]].

(** A kind over numbers created without a combine function. *)
Definition sampleUncombinable : TypeAttributeKind nat :=
  newTypeAttributeKind "provenance" None.

(** A kind of the same name that was given a combine function. *)
Definition sampleCombinable : TypeAttributeKind nat :=
  newTypeAttributeKind "provenance" (Some (fun a b => Ok (a + b))).

(** A producer of defaults that logs its calls in the world. *)
Definition sampleMakeDefault : Eff (list string) (list string) :=
  fun log => (["none"], log ++ ["makeDefault"]).

(** A class with a strict, an untyped and an optional property. *)
Definition sampleClass : ClassType :=
  mkClassType
    [mkProperty (NameToken "id") "id" integerType;
     mkProperty (NameToken "extra") "extra" anyType;
     mkProperty (NameToken "label") "label"
       (unionType (NameToken "Label") [nullType; stringType])].

(** The union of integer, string and array of booleans. *)
Definition sampleUnion : list TypeNode :=
  [integerType; stringType; arrayType boolType].

(** A union with null and two other members. *)
Definition sampleNullableUnion : list TypeNode :=
  [nullType; integerType; stringType].

(** A union with a map member and a class member. *)
Definition sampleObjectUnion : list TypeNode :=
  [mapType stringType; classType (NameToken "Point")].

(** A union with two array members. *)
Definition sampleArraysUnion : list TypeNode :=
  [arrayType integerType; stringType; arrayType stringType].

(** [get<T>()] taken to keep the JSON value as it is. *)
Definition sampleGet (T : Sourcelike) (j : json) : Result json := Ok j.

(** A property read is strict where it is neither untyped nor optional. *)
Definition isStrictRead (r : PropertyRead) : bool :=
  match r with
  | ReadStrict _ => true
  | _ => false
  end.

(** The mapped type a read coerces to; the untyped read coerces to
    none. *)
Definition readType (r : PropertyRead) : option Sourcelike :=
  match r with
  | ReadOptional T => Some T
  | ReadUntyped => None
  | ReadStrict T => Some T
  end.

(** What a read leaves in its field when the key holds [stored] and
    [stored] coerces to [decoded]. *)
Definition fieldRead {V} (r : PropertyRead) (stored : json) (decoded : V)
    : FieldValue V :=
  match r with
  | ReadOptional _ => FieldOptional (if is_null stored then None else Some decoded)
  | ReadUntyped => FieldUntyped stored
  | ReadStrict _ => FieldTyped decoded
  end.

(** [get<T>()] that looks at [T]: an integer for [int64_t], a string for
    [std::string], a throw on anything else. *)
Definition sampleGetTyped (T : Sourcelike) (j : json) : Result json :=
  match T, j with
  | SText t, JNumberInteger _ =>
      if t =? "int64_t" then Ok j else Thrown "type must be number"
  | SText t, JString _ =>
      if t =? "std::string" then Ok j else Thrown "type must be string"
  | _, _ => Thrown "type error"
  end.

(** What the fields of a value of [sampleClass] encode to. *)
Definition sampleField (n : Name) : json :=
  match n with
  | NameToken t =>
      if t =? "id" then JNumberInteger 7
      else if t =? "label" then JString "x"
      else JNull
  end.

(** [get<std::string>()]: the string of a JSON string, a throw on anything
    else. *)
Definition sampleGetString (T : Sourcelike) (j : json) : Result string :=
  match j with
  | JString s => Ok s
  | _ => Thrown "type must be string"
  end.

(** Two bags with kinds of their own, neither of which can be combined. *)
Definition sampleDisjointBags : list (TypeAttributes nat) :=
  [makeAttributes sampleUncombinable 1;
   makeAttributes (newTypeAttributeKind "origin" None) 2].

(* ===================================================================== *)
(** * Properties of the attribute algebra *)
(* ===================================================================== *)

Section TypeAttributesFacts.

Context {T : Type} {strictT : StrictEquality T}.
Implicit Types (k key : TypeAttributeKind T) (m a : TypeAttributes T).

Lemma sameKey_name k1 k2 : sameKey k1 k2 = true <-> name k1 = name k2.
Proof.
  unfold sameKey, hashCode, equals. split.
  - intros H. apply andb_true_iff in H. destruct H as [_ H].
    now apply String.eqb_eq.
  - intros H. rewrite H. rewrite Z.eqb_refl, String.eqb_refl. reflexivity.
Qed.

Lemma sameKey_refl k : sameKey k k = true.
Proof. now apply sameKey_name. Qed.

Lemma sameKey_sym k1 k2 : sameKey k1 k2 = sameKey k2 k1.
Proof.
  destruct (sameKey k1 k2) eqn:E1, (sameKey k2 k1) eqn:E2; try reflexivity.
  - apply sameKey_name in E1. symmetry in E1. apply sameKey_name in E1. congruence.
  - apply sameKey_name in E2. symmetry in E2. apply sameKey_name in E2. congruence.
Qed.

Lemma sameKey_trans_l k1 k2 k3 :
  sameKey k1 k2 = true -> sameKey k1 k3 = sameKey k2 k3.
Proof.
  intros H. apply sameKey_name in H.
  destruct (sameKey k1 k3) eqn:E1, (sameKey k2 k3) eqn:E2; try reflexivity.
  - apply sameKey_name in E1.
    assert (sameKey k2 k3 = true) by (apply sameKey_name; congruence). congruence.
  - apply sameKey_name in E2.
    assert (sameKey k1 k3 = true) by (apply sameKey_name; congruence). congruence.
Qed.

Lemma Map_entry_sameKey k1 k2 m :
  sameKey k1 k2 = true -> Map_entry k1 m = Map_entry k2 m.
Proof.
  intros H. induction m as [|[k0 v0] rest IH]; simpl; [reflexivity|].
  rewrite (sameKey_trans_l _ _ k0 H). now rewrite IH.
Qed.

Lemma Map_get_sameKey k1 k2 m :
  sameKey k1 k2 = true -> Map_get k1 m = Map_get k2 m.
Proof. intros H. unfold Map_get. now rewrite (Map_entry_sameKey _ _ m H). Qed.

Lemma Map_get_set k key v m :
  Map_get k (Map_set key v m) = if sameKey k key then Some v else Map_get k m.
Proof.
  unfold Map_get.
  induction m as [|[k0 v0] rest IH]; simpl.
  - destruct (sameKey k key); reflexivity.
  - destruct (sameKey key k0) eqn:E0.
    + assert (Ek : sameKey k k0 = sameKey k key).
      { rewrite sameKey_sym in E0.
        rewrite (sameKey_sym k k0), (sameKey_trans_l _ _ k E0).
        apply sameKey_sym. }
      destruct (strictEquals v0 v) eqn:Es; simpl; rewrite Ek.
      * apply strictEquals_same in Es. subst v0.
        destruct (sameKey k key); reflexivity.
      * destruct (sameKey k key); reflexivity.
    + simpl. destruct (sameKey k k0) eqn:E1.
      * destruct (sameKey k key) eqn:E; [|reflexivity].
        rewrite sameKey_sym in E.
        rewrite (sameKey_trans_l _ _ k0 E) in E0. congruence.
      * exact IH.
Qed.

(** The value stored being the very value set, the map comes back as it
    is. *)
Lemma Map_set_same_value key k0 v0 v m :
  Map_entry key m = Some (k0, v0) -> strictEquals v0 v = true ->
  Map_set key v m = m.
Proof.
  induction m as [|[k1 v1] rest IH]; simpl; [discriminate|].
  destruct (sameKey key k1).
  - intros E Hs. injection E as -> ->. now rewrite Hs.
  - intros E Hs. now rewrite (IH E Hs).
Qed.

(** Setting a key that is there adds no entry. *)
Lemma length_Map_set_present key v m :
  Map_get key m <> None -> length (Map_set key v m) = length m.
Proof.
  unfold Map_get.
  induction m as [|[k1 v1] rest IH]; simpl; [congruence|].
  destruct (sameKey key k1).
  - intros _. destruct (strictEquals v1 v); reflexivity.
  - intros H. simpl. now rewrite (IH H).
Qed.

Lemma Map_get_remove k key m :
  Map_get k (Map_remove key m) = if sameKey k key then None else Map_get k m.
Proof.
  unfold Map_get.
  induction m as [|[k0 v0] rest IH]; simpl.
  - destruct (sameKey k key); reflexivity.
  - destruct (sameKey key k0) eqn:E0; simpl.
    + rewrite IH. destruct (sameKey k key) eqn:E; [reflexivity|].
      rewrite sameKey_sym in E0.
      rewrite (sameKey_sym k k0), (sameKey_trans_l _ _ k E0).
      rewrite sameKey_sym, E. reflexivity.
    + destruct (sameKey k k0) eqn:E1.
      * destruct (sameKey k key) eqn:E; [|reflexivity].
        rewrite sameKey_sym in E.
        rewrite (sameKey_trans_l _ _ k0 E) in E0. congruence.
      * exact IH.
Qed.

Lemma Map_entry_absent k m :
  existsb (fun e => sameKey k (fst e)) m = false -> Map_entry k m = None.
Proof.
  induction m as [|[k0 v0] rest IH]; simpl; [reflexivity|].
  intros H. apply orb_false_iff in H. destruct H as [H1 H2].
  rewrite H1. now apply IH.
Qed.

Lemma Map_entry_present k m :
  existsb (fun e => sameKey k (fst e)) m = true -> Map_entry k m <> None.
Proof.
  induction m as [|[k0 v0] rest IH]; simpl; [discriminate|].
  destruct (sameKey k k0); [discriminate|]. exact IH.
Qed.

Lemma existsb_Map_set k key v m :
  existsb (fun e => sameKey k (fst e)) (Map_set key v m)
  = existsb (fun e => sameKey k (fst e)) m || sameKey k key.
Proof.
  induction m as [|[k0 v0] rest IH]; simpl.
  - now rewrite orb_false_r.
  - destruct (sameKey key k0) eqn:E0.
    + destruct (strictEquals v0 v); simpl;
        rewrite (sameKey_sym k key), (sameKey_trans_l _ _ k E0), (sameKey_sym k0 k);
        (destruct (sameKey k k0); simpl; [reflexivity|]; now rewrite orb_false_r).
    + simpl. rewrite IH. now rewrite orb_assoc.
Qed.

Lemma existsb_Map_remove k key m :
  existsb (fun e => sameKey k (fst e)) m = false ->
  existsb (fun e => sameKey k (fst e)) (Map_remove key m) = false.
Proof.
  induction m as [|[k0 v0] rest IH]; simpl; [reflexivity|].
  intros H. apply orb_false_iff in H. destruct H as [H1 H2].
  destruct (sameKey key k0); simpl; [now apply IH|].
  rewrite H1. now apply IH.
Qed.

(** The operations of the map keep its keys apart. *)
Lemma wellFormed_Map_set key v m :
  wellFormed m = true -> wellFormed (Map_set key v m) = true.
Proof.
  induction m as [|[k0 v0] rest IH]; simpl; [reflexivity|].
  intros H. apply andb_true_iff in H. destruct H as [Hfresh Hwf].
  apply negb_true_iff in Hfresh.
  destruct (sameKey key k0) eqn:E0; [destruct (strictEquals v0 v)|]; simpl.
  - now rewrite Hfresh, Hwf.
  - rewrite Hwf, andb_true_r. apply negb_true_iff.
    rewrite <- Hfresh. clear -E0.
    induction rest as [|[k1 v1] rest IH]; simpl; [reflexivity|].
    now rewrite IH, (sameKey_trans_l _ _ k1 E0).
  - rewrite (IH Hwf), andb_true_r. apply negb_true_iff.
    rewrite existsb_Map_set, Hfresh. simpl.
    now rewrite sameKey_sym.
Qed.

Lemma wellFormed_Map_remove key m :
  wellFormed m = true -> wellFormed (Map_remove key m) = true.
Proof.
  induction m as [|[k0 v0] rest IH]; simpl; [reflexivity|].
  intros H. apply andb_true_iff in H. destruct H as [Hfresh Hwf].
  apply negb_true_iff in Hfresh.
  destruct (sameKey key k0); simpl; [now apply IH|].
  rewrite (IH Hwf), andb_true_r. apply negb_true_iff.
  now apply existsb_Map_remove.
Qed.

End TypeAttributesFacts.

Section MergeFacts.

Context {T : Type} {strictT : StrictEquality T}.
Implicit Types (k key : TypeAttributeKind T) (m a c : TypeAttributes T).

Lemma fold_mergeIntoMap_thrown (f : T -> T -> TypeAttributeKind T -> Result T) iter msg :
  fold_left (mergeIntoMap f) iter (Thrown msg) = Thrown msg.
Proof. induction iter as [|e rest IH]; simpl; auto. Qed.

Lemma fold_iters_thrown (f : T -> T -> TypeAttributeKind T -> Result T) iters msg :
  fold_left (fun acc iter => fold_left (mergeIntoMap f) iter acc) iters (Thrown msg)
  = Thrown msg.
Proof.
  induction iters as [|i rest IH]; simpl; auto.
  now rewrite fold_mergeIntoMap_thrown.
Qed.

Lemma slotAfter_thrown (es : list (TypeAttributeKind T * T)) msg :
  fold_left (@slotStep T) es (Thrown msg) = Thrown msg.
Proof. induction es as [|e rest IH]; simpl; auto. Qed.

Lemma slotAfter_app start (es1 es2 : list (TypeAttributeKind T * T)) :
  slotAfter start (es1 ++ es2) =
  match slotAfter start es1 with
  | Ok s => slotAfter s es2
  | Thrown msg => Thrown msg
  end.
Proof.
  unfold slotAfter. rewrite fold_left_app.
  destruct (fold_left _ es1 _); [reflexivity|apply slotAfter_thrown].
Qed.

(** One entry merged in: what every slot of the collection becomes. *)
Lemma mergeIntoMap_slot c key value k :
  match mergeIntoMap (@combineMerger T) (Ok c) (key, value) with
  | Ok c' =>
      slotAfter (Map_get k c) (if sameKey k key then [(key, value)] else [])
      = Ok (Map_get k c')
  | Thrown msg =>
      slotAfter (Map_get key c) [(key, value)] = Thrown msg
  end.
Proof.
  unfold mergeIntoMap, slotAfter, slotStep, combineMerger; simpl.
  destruct (Map_get key c) as [existing|] eqn:Eg; simpl.
  - destruct (combine key existing value) as [merged|msg] eqn:Ec; simpl; [|reflexivity].
    rewrite Map_get_set. destruct (sameKey k key) eqn:E; simpl; [|reflexivity].
    rewrite (Map_get_sameKey _ _ c E), Eg. simpl. rewrite Ec. reflexivity.
  - rewrite Map_get_set. destruct (sameKey k key) eqn:E; simpl; [|reflexivity].
    rewrite (Map_get_sameKey _ _ c E), Eg. reflexivity.
Qed.

(** One map merged in. *)
Lemma merge_iter_slot iter : wellFormed iter = true -> forall c,
  match fold_left (mergeIntoMap (@combineMerger T)) iter (Ok c) with
  | Ok c' => forall k, slotAfter (Map_get k c) (entryList k iter) = Ok (Map_get k c')
  | Thrown msg => exists k, slotAfter (Map_get k c) (entryList k iter) = Thrown msg
  end.
Proof.
  induction iter as [|[key value] rest IH]; intros Hwf c; cbn [fold_left].
  - intros k. reflexivity.
  - simpl in Hwf. apply andb_true_iff in Hwf. destruct Hwf as [Hfresh Hwf].
    apply negb_true_iff in Hfresh.
    pose proof (mergeIntoMap_slot c key value) as Hstep.
    destruct (mergeIntoMap (@combineMerger T) (Ok c) (key, value)) as [c1|msg] eqn:E1.
    + specialize (IH Hwf c1).
      destruct (fold_left (mergeIntoMap (@combineMerger T)) rest (Ok c1)) as [c'|msg] eqn:E2.
      * intros k. specialize (Hstep k). specialize (IH k).
        unfold entryList in *. simpl.
        destruct (sameKey k key) eqn:E.
        -- rewrite (Map_entry_sameKey _ _ rest E), (Map_entry_absent _ _ Hfresh) in IH.
           unfold slotAfter in IH; simpl in IH. congruence.
        -- unfold slotAfter in Hstep; simpl in Hstep. congruence.
      * destruct IH as [k IH]. exists k.
        specialize (Hstep k). unfold entryList in *. simpl.
        destruct (sameKey k key) eqn:E.
        -- rewrite (Map_entry_sameKey _ _ rest E), (Map_entry_absent _ _ Hfresh) in IH.
           unfold slotAfter in IH; simpl in IH. congruence.
        -- unfold slotAfter in Hstep; simpl in Hstep. congruence.
    + rewrite fold_mergeIntoMap_thrown. exists key.
      specialize (Hstep key). unfold entryList. simpl.
      rewrite sameKey_refl. exact Hstep.
Qed.

(** All maps merged in. *)
Lemma merge_iters_slot iters :
  Forall (fun b => wellFormed b = true) iters -> forall c,
  match Map_mergeWith (@combineMerger T) c iters with
  | Ok c' => forall k, slotAfter (Map_get k c) (entriesOf k iters) = Ok (Map_get k c')
  | Thrown msg => exists k, slotAfter (Map_get k c) (entriesOf k iters) = Thrown msg
  end.
Proof.
  unfold Map_mergeWith.
  induction iters as [|iter rest IH]; intros Hwf c; cbn [fold_left].
  - intros k. reflexivity.
  - inversion Hwf as [|? ? Hwf1 Hwf2]; subst.
    pose proof (merge_iter_slot iter Hwf1 c) as H1.
    destruct (fold_left (mergeIntoMap (@combineMerger T)) iter (Ok c)) as [c1|msg] eqn:E1.
    + specialize (IH Hwf2 c1).
      assert (Happ : forall k, slotAfter (Map_get k c) (entriesOf k (iter :: rest))
                               = slotAfter (Map_get k c1) (entriesOf k rest)).
      { intros k. unfold entriesOf at 1. simpl. fold (entriesOf k rest).
        rewrite slotAfter_app. fold (entryList k iter). now rewrite (H1 k). }
      match goal with
      | |- match ?r with _ => _ end => destruct r as [c'|msg] eqn:E2
      end.
      * intros k. rewrite Happ. apply IH.
      * destruct IH as [k IH]. exists k. rewrite Happ. exact IH.
    + rewrite fold_iters_thrown. destruct H1 as [k H1]. exists k.
      unfold entriesOf. simpl. fold (entriesOf k rest).
      rewrite slotAfter_app. fold (entryList k iter). rewrite H1. reflexivity.
Qed.

Lemma slotAfter_some v0 (es : list (TypeAttributeKind T * T)) :
  slotAfter (Some v0) es =
  (v <- fold_left (@combineStep T) es (Ok v0) ;; Ok (Some v))%result.
Proof.
  unfold slotAfter. revert v0.
  induction es as [|e rest IH]; intros v0; cbn [fold_left]; [reflexivity|].
  change (slotStep (Ok (Some v0)) e)
    with (v <- combine (fst e) v0 (snd e) ;; Ok (Some v))%result.
  change (combineStep (Ok v0) e) with (combine (fst e) v0 (snd e)).
  destruct (combine (fst e) v0 (snd e)) as [v|msg]; cbn [bindR].
  - apply IH.
  - rewrite slotAfter_thrown.
    assert (H : forall l, fold_left (@combineStep T) l (Thrown msg) = Thrown msg)
      by (induction l; simpl; auto).
    rewrite H. reflexivity.
Qed.

Lemma combinedValue_slotAfter k bags :
  combinedValue k bags = slotAfter None (entriesOf k bags).
Proof.
  unfold combinedValue. destruct (entriesOf k bags) as [|[k0 v0] rest].
  - reflexivity.
  - unfold slotAfter. simpl. apply eq_sym, slotAfter_some.
Qed.

(** The merge, slot by slot. *)
Lemma combineTypeAttributes_slots (bags : list (TypeAttributes T)) :
  Forall (fun b => wellFormed b = true) bags ->
  match combineTypeAttributes bags with
  | Ok r => forall k, combinedValue k bags = Ok (Map_get k r)
  | Thrown msg => exists k, combinedValue k bags = Thrown msg
  end.
Proof.
  intros Hwf. destruct bags as [|first rest]; simpl.
  - intros k. reflexivity.
  - inversion Hwf as [|? ? Hwf1 Hwf2]; subst.
    pose proof (merge_iters_slot Hwf2 first) as H.
    assert (Hfirst : forall k, slotAfter None (entriesOf k (first :: rest)) =
                               slotAfter (Map_get k first) (entriesOf k rest)).
    { intros k. unfold entriesOf at 1. simpl. fold (entriesOf k rest).
      unfold Map_get, entryList.
      destruct (Map_entry k first) as [[k0 v0]|]; reflexivity. }
    destruct (Map_mergeWith (@combineMerger T) first rest) as [r|msg].
    + intros k. rewrite combinedValue_slotAfter, Hfirst. apply H.
    + destruct H as [k H]. exists k. rewrite combinedValue_slotAfter, Hfirst. exact H.
Qed.

(** Merging keeps the keys apart, whatever the merger. *)
Lemma wellFormed_mergeWith (f : T -> T -> TypeAttributeKind T -> Result T) iters :
  forall c r,
    wellFormed c = true -> Map_mergeWith f c iters = Ok r -> wellFormed r = true.
Proof.
  unfold Map_mergeWith.
  assert (Hiter : forall iter c r,
            wellFormed c = true ->
            fold_left (mergeIntoMap f) iter (Ok c) = Ok r -> wellFormed r = true).
  { induction iter as [|[key value] rest IH]; intros c r Hc; cbn [fold_left].
    - intros H. injection H as <-. exact Hc.
    - unfold mergeIntoMap at 2. cbn [bindR].
      destruct (Map_get key c) as [existing|].
      + destruct (f existing value key) as [merged|msg]; cbn [bindR].
        * apply IH. now apply wellFormed_Map_set.
        * rewrite fold_mergeIntoMap_thrown. discriminate.
      + apply IH. now apply wellFormed_Map_set. }
  induction iters as [|iter rest IH]; intros c r Hc; cbn [fold_left].
  - intros H. injection H as <-. exact Hc.
  - destruct (fold_left (mergeIntoMap f) iter (Ok c)) as [c1|msg] eqn:E1.
    + apply IH. exact (Hiter iter c c1 Hc E1).
    + rewrite fold_iters_thrown. discriminate.
Qed.

Lemma wellFormed_combineTypeAttributes (bags : list (TypeAttributes T)) r :
  Forall (fun b => wellFormed b = true) bags ->
  combineTypeAttributes bags = Ok r -> wellFormed r = true.
Proof.
  intros Hwf. destruct bags as [|first rest]; simpl.
  - intros H. injection H as <-. reflexivity.
  - inversion Hwf; subst. now apply wellFormed_mergeWith.
Qed.

(** A map merged into the empty map is that map again: the shortcut
    Immutable takes there changes nothing. *)
Lemma merge_into_empty (f : T -> T -> TypeAttributeKind T -> Result T) m :
  wellFormed m = true -> Map_mergeWith f [] [m] = Ok m.
Proof.
  unfold Map_mergeWith. cbn [fold_left].
  assert (H : forall done,
            wellFormed (done ++ m) = true ->
            fold_left (mergeIntoMap f) m (Ok done) = Ok (done ++ m)).
  { induction m as [|[key value] rest IH]; intros done Hwf; cbn [fold_left].
    - now rewrite app_nil_r.
    - assert (Hfresh : existsb (fun e => sameKey key (fst e)) done = false).
      { clear IH. induction done as [|[k0 v0] done IH]; [reflexivity|].
        simpl in Hwf. apply andb_true_iff in Hwf. destruct Hwf as [H0 Hwf].
        apply negb_true_iff in H0. rewrite existsb_app in H0.
        apply orb_false_iff in H0. destruct H0 as [_ H0]. simpl in H0.
        apply orb_false_iff in H0. destruct H0 as [H0 _].
        simpl. rewrite sameKey_sym, H0. now apply IH. }
      unfold mergeIntoMap at 2. cbn [bindR]. unfold Map_get.
      rewrite (Map_entry_absent _ _ Hfresh). cbn [option_map].
      assert (Hset : Map_set key value done = done ++ [(key, value)]).
      { clear -Hfresh. induction done as [|[k0 v0] done IH]; [reflexivity|].
        simpl in *. apply orb_false_iff in Hfresh. destruct Hfresh as [H0 H1].
        rewrite H0. now rewrite IH. }
      rewrite Hset, IH; rewrite <- app_assoc; [reflexivity|exact Hwf]. }
  intros Hwf. exact (H [] Hwf).
Qed.

End MergeFacts.

Section AttributeProperties.

Context {T : Type} {strictT : StrictEquality T}.
Implicit Types (k key : TypeAttributeKind T) (m a c : TypeAttributes T).

Lemma combineStep_same_combine k (es : list (TypeAttributeKind T * T)) :
  Forall (fun e => combine (fst e) = combine k) es ->
  forall acc,
    fold_left (@combineStep T) es acc =
    fold_left (fun acc v => a <- acc ;; combine k a v)%result (map snd es) acc.
Proof.
  induction 1 as [|e rest He _ IH]; intros acc; simpl; [reflexivity|].
  rewrite IH. unfold combineStep. rewrite He. reflexivity.
Qed.

Lemma combinedValue_same_combine k (bags : list (TypeAttributes T)) :
  Forall (fun e => combine (fst e) = combine k) (entriesOf k bags) ->
  combinedValue k bags = combineAll k (map snd (entriesOf k bags)).
Proof.
  unfold combinedValue, combineAll. intros H.
  destruct (entriesOf k bags) as [|[k0 v0] rest]; simpl; [reflexivity|].
  inversion H as [|? ? _ Hrest]; subst.
  now rewrite (@combineStep_same_combine k rest Hrest).
Qed.

(** C1: [combineTypeAttributes] is a left-fold union.  The empty sequence
    gives the empty bag and a one-element sequence gives its bag unchanged.
    For well-formed bags, when the merge returns, every kind's slot holds
    the left fold, in input order, of the combine functions over the values
    the bags hold for it, each value combined by the combine function of
    the kind it is stored under, which is the kind's own combine function
    where the bags agree on it; a kind held by exactly one bag keeps that
    bag's value.  When the merge throws, it is the fold of some kind that
    throws, with that message. *)
Theorem combineTypeAttributes_left_fold (bags : list (TypeAttributes T)) :
  Forall (fun b => wellFormed b = true) bags ->
  combineTypeAttributes (@nil (TypeAttributes T)) = Ok emptyTypeAttributes /\
  (forall a, combineTypeAttributes [a] = Ok a) /\
  match combineTypeAttributes bags with
  | Ok r =>
      forall k,
        combinedValue k bags = Ok (tryGetInAttributes k r) /\
        (Forall (fun e => combine (fst e) = combine k) (entriesOf k bags) ->
         combineAll k (map snd (entriesOf k bags)) = Ok (tryGetInAttributes k r)) /\
        (forall k' v, entriesOf k bags = [(k', v)] ->
                      tryGetInAttributes k r = Some v)
  | Thrown msg => exists k, combinedValue k bags = Thrown msg
  end.
Proof.
  intros Hwf. split; [reflexivity|]. split; [reflexivity|].
  pose proof (combineTypeAttributes_slots Hwf) as H.
  destruct (combineTypeAttributes bags) as [r|msg]; [|exact H].
  intros k. specialize (H k). unfold tryGetInAttributes. split; [exact H|]. split.
  - intros Hsame. now rewrite <- (combinedValue_same_combine _ _ Hsame).
  - intros k' v Hone. unfold combinedValue in H. rewrite Hone in H.
    simpl in H. congruence.
Qed.

Lemma slotAfter_filled (es : list (TypeAttributeKind T * T)) : forall s,
  s <> None \/ es <> [] -> slotAfter s es <> Ok None.
Proof.
  unfold slotAfter.
  induction es as [|e rest IH]; intros s Hs; simpl.
  - destruct Hs as [Hs|Hs]; congruence.
  - destruct s as [x|]; simpl.
    + destruct (combine (fst e) x (snd e)) as [v|msg]; simpl.
      * apply IH. left. discriminate.
      * rewrite slotAfter_thrown. discriminate.
    + apply IH. left. discriminate.
Qed.

(** C7, amended: a kind created without a combine function cannot be
    merged in.  Its combine function throws on any two values, and
    [combineTypeAttributes] throws whenever a bag that stores a value under
    that kind object comes after a bag that holds a value for a kind of
    that name: no bag comes out.  The combine function that decides is the
    one of the kind object of the entry merged in: merging a one-entry bag
    into a bag that holds a value for the kind gives what that function
    gives, set under the entry's kind. *)
Theorem uncombinable_kind_merge_is_fatal (nm : string) :
  (forall x y, combine (@newTypeAttributeKind T nm None) x y
               = Thrown ("Cannot combine type attribute " ++ nm)%string) /\
  (forall (pre mid post : list (TypeAttributes T)) (a b : TypeAttributes T)
          (va vb : T),
     Forall (fun bag => wellFormed bag = true) (pre ++ a :: mid ++ b :: post) ->
     tryGetInAttributes (@newTypeAttributeKind T nm None) a = Some va ->
     Map_entry (@newTypeAttributeKind T nm None) b
       = Some (@newTypeAttributeKind T nm None, vb) ->
     exists msg, combineTypeAttributes (pre ++ a :: mid ++ b :: post) = Thrown msg) /\
  (forall (k' : TypeAttributeKind T) (first : TypeAttributes T) (va vb : T),
     tryGetInAttributes k' first = Some va ->
     combineTypeAttributes [first; makeAttributes k' vb]
     = (merged <- combine k' va vb ;; Ok (setInAttributes k' first merged))%result).
Proof.
  split; [reflexivity|]. split.
  - intros pre mid post a b va vb Hwf Ha Hb.
    set (k := @newTypeAttributeKind T nm None) in *.
    pose proof (combineTypeAttributes_slots Hwf) as H.
    destruct (combineTypeAttributes _) as [r|msg]; [|now exists msg].
    exfalso. specialize (H k). rewrite combinedValue_slotAfter in H.
    assert (Hentries : entriesOf k (pre ++ a :: mid ++ b :: post) =
                       (entriesOf k pre ++ entryList k a ++ entriesOf k mid)
                       ++ (k, vb) :: entriesOf k post).
    { assert (Hlast : entryList k b = [(k, vb)])
        by (unfold entryList; now rewrite Hb).
      unfold entriesOf. rewrite flat_map_app. cbn [flat_map].
      rewrite flat_map_app. cbn [flat_map]. rewrite Hlast.
      now rewrite <- !app_assoc. }
    rewrite Hentries, slotAfter_app in H.
    assert (Hfilled : entriesOf k pre ++ entryList k a ++ entriesOf k mid <> []).
    { unfold entryList, tryGetInAttributes, Map_get in *.
      destruct (Map_entry k a); [|discriminate].
      destruct (entriesOf k pre); discriminate. }
    pose proof (@slotAfter_filled _ None (or_intror Hfilled)) as Hslot.
    destruct (slotAfter None _) as [[x|]|msg]; [| congruence | discriminate].
    unfold slotAfter in H. cbn [fold_left] in H.
    change (slotStep (Ok (Some x)) (k, vb))
      with (@Thrown (option T) ("Cannot combine type attribute " ++ nm)%string) in H.
    rewrite slotAfter_thrown in H. discriminate.
  - intros k' first va vb Hfirst.
    unfold combineTypeAttributes, Map_mergeWith, makeAttributes.
    cbn [fold_left]. unfold mergeIntoMap. cbn [bindR].
    unfold tryGetInAttributes in Hfirst. rewrite Hfirst. reflexivity.
Qed.

(** C8: [setDefaultInAttributes] leaves the bag as it is, and the world
    untouched by the producer, when the kind is already there; otherwise it
    runs the producer once and installs what it returned.  The producer is
    never called more than once. *)
Theorem setDefaultInAttributes_default_once {W} k a (makeDefault : Eff W T) (w : W) :
  (forall v, tryGetInAttributes k a = Some v ->
             setDefaultInAttributes k a makeDefault w = (a, w) /\
             fst (snd (setDefaultInAttributes k a (counted makeDefault) (0, w))) = 0) /\
  (tryGetInAttributes k a = None ->
     setDefaultInAttributes k a makeDefault w
       = (setInAttributes k a (fst (makeDefault w)), snd (makeDefault w)) /\
     tryGetInAttributes k (fst (setDefaultInAttributes k a makeDefault w))
       = Some (fst (makeDefault w)) /\
     fst (snd (setDefaultInAttributes k a (counted makeDefault) (0, w))) = 1) /\
  fst (snd (setDefaultInAttributes k a (counted makeDefault) (0, w))) <= 1.
Proof.
  unfold setDefaultInAttributes, modifyInAttributes, bindE, retE, counted.
  destruct (tryGetInAttributes k a) as [v0|] eqn:E; simpl.
  - split; [|split; [discriminate|lia]]. intros v _. split; reflexivity.
  - split; [discriminate|]. split; [|destruct (makeDefault w); simpl; lia].
    intros _. destruct (makeDefault w) as [v w'] eqn:Em; simpl.
    split; [reflexivity|]. split; [|reflexivity].
    unfold tryGetInAttributes, setInAttributes. rewrite Map_get_set.
    now rewrite sameKey_refl.
Qed.

(** C9: kinds are equal by name alone.  Two kinds of the same name are
    equal, have the same hash code, and find each other's slot: a value
    set under the one is got under the other, in every bag.  Two kinds are
    equal only if their names are, and a kind equals nothing that is not a
    kind. *)
Theorem kind_equality_is_by_name (k1 k2 : TypeAttributeKind T) :
  name k1 = name k2 ->
  equals k1 (AKind k2) = true /\
  hashCode k1 = hashCode k2 /\
  (forall a v, tryGetInAttributes k2 (setInAttributes k1 a v) = Some v) /\
  (forall a, tryGetInAttributes k1 a = tryGetInAttributes k2 a) /\
  (forall k, equals k1 (AKind k) = true <-> name k1 = name k) /\
  (forall o : T, equals k1 (AOther o) = false).
Proof.
  intros Hname.
  assert (Hsame : sameKey k2 k1 = true) by (now apply sameKey_name).
  repeat split.
  - unfold equals. now apply String.eqb_eq.
  - unfold hashCode. now rewrite Hname.
  - intros a v. unfold tryGetInAttributes, setInAttributes.
    rewrite Map_get_set. now rewrite Hsame.
  - intros a. unfold tryGetInAttributes. apply Map_get_sameKey.
    now rewrite sameKey_sym.
  - unfold equals. apply String.eqb_eq.
  - unfold equals. apply String.eqb_eq.
Qed.

End AttributeProperties.

(* ===================================================================== *)
(** * Properties of the C++ renderer *)
(* ===================================================================== *)

Section RenderFacts.

Lemma Appends_ret {A} (a : A) : Appends (retRender a) a (fun _ => []).
Proof. intros [i e]. unfold retRender. simpl. now rewrite app_nil_r. Qed.

Lemma Appends_emitLine parts : Appends (emitLine parts) tt (fun i => [Line i parts]).
Proof. intros st. reflexivity. Qed.

Lemma Appends_emitNewline : Appends emitNewline tt (fun _ => [BlankLine]).
Proof. intros st. reflexivity. Qed.

Lemma Appends_bind {A B} (c : Render A) (f : A -> Render B) a b l1 l2 :
  Appends c a l1 -> Appends (f a) b l2 ->
  Appends (bindRender c f) b (fun i => l1 i ++ l2 i).
Proof.
  intros Hc Hf st. unfold bindRender. rewrite Hc, Hf. simpl.
  now rewrite app_assoc.
Qed.

Lemma Appends_indent {A} (f : Render A) a l :
  Appends f a l -> Appends (indent f) a (fun i => l (S i)).
Proof. intros Hf st. unfold indent. rewrite Hf. reflexivity. Qed.

Lemma Appends_ext {A} (r : Render A) a l1 l2 :
  (forall i, l1 i = l2 i) -> Appends r a l1 -> Appends r a l2.
Proof. intros He Hr st. rewrite Hr, He. reflexivity. Qed.

Lemma Appends_emitBlock {A} (line : Sourcelike) (f : Render A) a l :
  Appends f a l ->
  Appends (emitBlock line false f) a
          (fun i => Line i [line; SText " {"] :: l (S i) ++ [Line i [SText "}"]]).
Proof.
  intros Hf. unfold emitBlock.
  eapply Appends_ext;
    [|eapply Appends_bind;
       [apply Appends_emitLine
       |eapply Appends_bind;
          [apply Appends_indent, Hf
          |eapply Appends_bind; [apply Appends_emitLine|apply Appends_ret]]]].
  intros i. reflexivity.
Qed.

Lemma Appends_forEach {A S} (f : S -> A -> Render S) next lines :
  (forall s x, Appends (f s x) (next s x) (lines s x)) ->
  forall l s, Appends (forEach f l s) (fold_left next l s) (loopLines next lines l s).
Proof.
  intros Hf. induction l as [|x rest IH]; intros s; simpl.
  - apply Appends_ret.
  - eapply Appends_bind; [apply Hf|apply IH].
Qed.

Lemma Appends_linesOf {A} (r : Render A) a l i :
  Appends r a l -> linesOf r i = l i.
Proof. intros Hr. unfold linesOf. rewrite Hr. reflexivity. Qed.

(** Building a separated list by pushing onto an array. *)
Lemma fold_separated_from {A B} (sep : B) (g : A -> list B) (l : list A) :
  (forall x, g x <> []) ->
  forall acc, acc <> [] ->
    fold_left (fun acc x =>
                 (if negb (length acc =? 0)%nat then acc ++ [sep] else acc) ++ g x)
              l acc
    = acc ++ flat_map (fun x => sep :: g x) l.
Proof.
  intros Hg. induction l as [|x rest IH]; intros acc Hacc; simpl.
  - now rewrite app_nil_r.
  - destruct acc as [|a0 acc']; [congruence|]. simpl.
    rewrite IH by discriminate. simpl. now rewrite <- !app_assoc.
Qed.

Lemma fold_separated {A B} (sep : B) (g : A -> list B) (l : list A) :
  (forall x, g x <> []) ->
  fold_left (fun acc x =>
               (if negb (length acc =? 0)%nat then acc ++ [sep] else acc) ++ g x)
            l []
  = concat (intersperse [sep] (map g l)).
Proof.
  intros Hg. destruct l as [|x rest]; [reflexivity|]. simpl fold_left.
  rewrite fold_separated_from by auto. simpl app.
  clear. revert x. induction rest as [|y rest IH]; intros x.
  - simpl. reflexivity.
  - change (intersperse [sep] (map g (x :: y :: rest)))
      with (g x :: [sep] :: intersperse [sep] (map g (y :: rest))).
    cbn [concat flat_map]. rewrite <- IH. reflexivity.
Qed.

Lemma concat_intersperse_singletons {A B} (sep : B) (f : A -> B) (l : list A) :
  concat (intersperse [sep] (map (fun x => [f x]) l)) = intersperse sep (map f l).
Proof.
  destruct l as [|x rest]; [reflexivity|].
  revert x. induction rest as [|y rest IH]; intros x; [reflexivity|].
  change (intersperse [sep] (map (fun x => [f x]) (x :: y :: rest)))
    with ([f x] :: [sep] :: intersperse [sep] (map (fun x => [f x]) (y :: rest))).
  change (intersperse sep (map f (x :: y :: rest)))
    with (f x :: sep :: intersperse sep (map f (y :: rest))).
  cbn [concat app]. rewrite IH. reflexivity.
Qed.

Lemma Appends_own_lines {A} (r : Render A) a l :
  Appends r a l -> Appends r a (linesOf r).
Proof.
  intros Hr. eapply Appends_ext; [|exact Hr].
  intros i. symmetry. now apply Appends_linesOf with (a := a).
Qed.

End RenderFacts.

Section TypeMappingProperties.

Variable _namespaceName : string.

Lemma cppType_union named members inJ wI :
  cppType _namespaceName (unionType named members) inJ wI =
  match nullableFromUnion members with
  | Some nullable =>
      SArray [SText "boost::optional<";
              cppType _namespaceName nullable inJ wI;
              SText ">"]
  | None => SArray [ourQualifier _namespaceName inJ; SName named]
  end.
Proof.
  simp cppType.
  destruct (inspect (nullableFromUnion members)) as [[t|] e];
    simp cppType; now rewrite e.
Qed.

Lemma cppTypeInOptional_variant nonNulls inJ wI :
  length nonNulls <> 1 ->
  cppTypeInOptional _namespaceName nonNulls inJ wI =
  SArray [SText "boost::variant<";
          SArray (intersperse (SText ", ")
                    (map (fun t => cppType _namespaceName t inJ wI) nonNulls));
          SText ">"].
Proof.
  intros Hlen. unfold cppTypeInOptional.
  rewrite (fold_separated (SText ", ")
             (fun t => [cppType _namespaceName t inJ wI])) by discriminate.
  rewrite concat_intersperse_singletons.
  destruct nonNulls as [|t [|t' rest]]; simpl in *; congruence.
Qed.

(** C2: the C++ type of a union.  With null and exactly one other member
    the union maps to [boost::optional] of that member's type.  With two or
    more members other than null it maps to its own name, which the typedef
    binds to a [boost::variant] over the members' types in the order of the
    member set, inside a [boost::optional] when null is a member.  Rendering
    the variant of a union with fewer than two members other than null
    throws, and so does the typedef: nothing is emitted. *)
Theorem union_cppType (named : Name) (members : list TypeNode)
    (hasNull : bool) (nonNulls : list TypeNode) (inJsonNamespace withIssues : bool) :
  removeNullFromUnion members = (hasNull, nonNulls) ->
  (forall t, hasNull = true -> nonNulls = [t] ->
     cppType _namespaceName (unionType named members) inJsonNamespace withIssues
     = SArray [SText "boost::optional<";
               cppType _namespaceName t inJsonNamespace withIssues;
               SText ">"]) /\
  (2 <= length nonNulls ->
     let variant inJson :=
       SArray [SText "boost::variant<";
               SArray (intersperse (SText ", ")
                         (map (fun t => cppType _namespaceName t inJson true)
                              nonNulls));
               SText ">"] in
     let mapped inJson :=
       if hasNull then SArray [SText "boost::optional<"; variant inJson; SText ">"]
       else variant inJson in
     variantType _namespaceName members inJsonNamespace = Ok (mapped inJsonNamespace) /\
     cppType _namespaceName (unionType named members) inJsonNamespace withIssues
     = SArray [ourQualifier _namespaceName inJsonNamespace; SName named] /\
     Appends (emitUnionTypedefs _namespaceName members named) tt
             (fun i => [Line i [SText "typedef "; mapped false; SText " ";
                                SName named; SText ";"]])) /\
  (length nonNulls < 2 ->
     variantType _namespaceName members inJsonNamespace
     = Thrown "Variant not needed for less than two types." /\
     forall st, emitUnionTypedefs _namespaceName members named st
                = Thrown "Variant not needed for less than two types.").
Proof.
  intros Hsplit. split; [|split].
  - intros t Hnull Hone. rewrite cppType_union.
    unfold nullableFromUnion. rewrite Hsplit, Hnull, Hone. reflexivity.
  - intros Hlen variant mapped.
    assert (Hvariant : forall inJ,
              variantType _namespaceName members inJ =
              Ok (if hasNull
                  then SArray [SText "boost::optional<";
                               cppTypeInOptional _namespaceName nonNulls inJ true;
                               SText ">"]
                  else cppTypeInOptional _namespaceName nonNulls inJ true)).
    { intros inJ. unfold variantType. rewrite Hsplit.
      destruct (length nonNulls <? 2)%nat eqn:E;
        [apply Nat.ltb_lt in E; lia|].
      destruct hasNull; reflexivity. }
    assert (Hmapped : forall inJ, variantType _namespaceName members inJ = Ok (mapped inJ)).
    { intros inJ. rewrite Hvariant. unfold mapped, variant.
      rewrite cppTypeInOptional_variant by lia. reflexivity. }
    split; [apply Hmapped|]. split.
    + rewrite cppType_union. unfold nullableFromUnion. rewrite Hsplit.
      destruct hasNull; simpl; [|reflexivity].
      destruct nonNulls as [|t [|t' rest]]; simpl in Hlen; try lia; reflexivity.
    + unfold emitUnionTypedefs. intros st.
      unfold bindRender, liftResult. rewrite Hmapped. reflexivity.
  - intros Hlen.
    assert (Hthrown : variantType _namespaceName members inJsonNamespace
                      = Thrown "Variant not needed for less than two types.").
    { unfold variantType. rewrite Hsplit.
      destruct (length nonNulls <? 2)%nat eqn:E; [reflexivity|].
      apply Nat.ltb_ge in E. lia. }
    split; [exact Hthrown|].
    intros st. unfold emitUnionTypedefs, bindRender, liftResult, variantType.
    rewrite Hsplit.
    destruct (length nonNulls <? 2)%nat eqn:E; [reflexivity|].
    apply Nat.ltb_ge in E. lia.
Qed.

End TypeMappingProperties.

Section ClassProperties.

Variable _namespaceName : string.
Variable utf16StringEscape : string -> string.

(** The read emitted for one property, and how it reads back. *)
Lemma emitClassFromJsonProperty_read name json t :
  exists parts,
    Appends (emitClassFromJsonProperty _namespaceName utf16StringEscape name json t)
            tt (fun i => [Line i parts]) /\
    forall i, readOfLine (Line i parts)
              = Some (name, utf16StringEscape json, specPropertyRead _namespaceName t).
Proof.
  unfold emitClassFromJsonProperty, specPropertyRead.
  destruct t; simpl;
    try (eexists; split; [apply Appends_emitLine|intros i; reflexivity]).
  destruct (existsb isNull members);
    eexists; (split; [apply Appends_emitLine|intros i; reflexivity]).
Qed.

Lemma emitClassFromJsonBody_reads c :
  Appends (emitClassFromJsonBody _namespaceName utf16StringEscape c) tt
          (linesOf (emitClassFromJsonBody _namespaceName utf16StringEscape c)) /\
  forall i,
    readsOfLines (linesOf (emitClassFromJsonBody _namespaceName utf16StringEscape c) i)
    = Some (specClassReads _namespaceName utf16StringEscape c).
Proof.
  set (emitProp := fun (_ : unit) p =>
         emitClassFromJsonProperty _namespaceName utf16StringEscape
           (propertyName p) (jsonName p) (propertyType p)).
  assert (Hbody : Appends (emitClassFromJsonBody _namespaceName utf16StringEscape c) tt
            (loopLines (fun _ _ => tt) (fun s p => linesOf (emitProp s p))
                       (properties c) tt)).
  { unfold emitClassFromJsonBody, forEachProperty.
    pose proof (@Appends_forEach Property unit emitProp (fun _ _ => tt)
                  (fun s p => linesOf (emitProp s p))) as H.
    assert (Hstep : forall s x, Appends (emitProp s x) tt (linesOf (emitProp s x))).
    { intros [] x.
      destruct (emitClassFromJsonProperty_read (propertyName x) (jsonName x)
                  (propertyType x)) as [parts [Hp _]].
      exact (Appends_own_lines Hp). }
    specialize (H Hstep (properties c) tt).
    assert (Hunit : fold_left (fun (_ : unit) (_ : Property) => tt) (properties c) tt = tt)
      by (now destruct (fold_left _ _ _)).
    rewrite Hunit in H. exact H. }
  split; [exact (Appends_own_lines Hbody)|].
  intros i. rewrite (Appends_linesOf i Hbody). clear Hbody.
  unfold specClassReads. induction (properties c) as [|p rest IH]; [reflexivity|].
  simpl loopLines.
  destruct (emitClassFromJsonProperty_read (propertyName p) (jsonName p)
              (propertyType p)) as [parts [Hp Hread]].
  unfold emitProp at 1. rewrite (Appends_linesOf i Hp).
  simpl app. cbn [readsOfLines map]. rewrite Hread, IH. reflexivity.
Qed.

Lemma loopLines_silent {A S} (next : S -> A -> S) (l : list A) : forall s i,
  loopLines next (fun _ _ _ => []) l s i = [].
Proof. induction l as [|x rest IH]; intros s i; simpl; auto. Qed.

Lemma emitClassToJsonBody_line c :
  Appends (emitClassToJsonBody utf16StringEscape c) tt
          (fun i => [Line i (specToJsonParts utf16StringEscape c)]).
Proof.
  unfold emitClassToJsonBody, specToJsonParts.
  destruct (properties c) as [|p rest] eqn:Eprops; simpl length; cbn [Nat.eqb].
  - apply Appends_emitLine.
  - unfold forEachProperty. rewrite Eprops.
    eapply Appends_ext;
      [|eapply Appends_bind;
         [apply (@Appends_forEach Property (list Sourcelike) _
                   (fun args p =>
                      (if negb (length args =? 0)%nat
                       then args ++ [SText ", "] else args) ++ specPairParts utf16StringEscape p)
                   (fun _ _ _ => []));
          intros s x; apply Appends_ret
         |apply Appends_emitLine]].
    intros i. cbn beta. rewrite loopLines_silent.
    rewrite (fold_separated (SText ", ") (specPairParts utf16StringEscape)) by discriminate.
    reflexivity.
Qed.

Lemma pairsOfArgs_pairParts (p : Property) (rest : list Property) :
  pairsOfArgs (concat (intersperse [SText ", "] (map (specPairParts utf16StringEscape) (p :: rest))))
  = Some (map (fun p => (utf16StringEscape (jsonName p), propertyName p)) (p :: rest)).
Proof.
  revert p. induction rest as [|q rest IH]; intros p.
  - reflexivity.
  - change (intersperse [SText ", "] (map (specPairParts utf16StringEscape) (p :: q :: rest)))
      with (specPairParts utf16StringEscape p :: [SText ", "]
            :: intersperse [SText ", "] (map (specPairParts utf16StringEscape) (q :: rest))).
    cbn [concat]. unfold specPairParts at 1. cbn [app].
    unfold pairsOfArgs; fold pairsOfArgs.
    rewrite !String.eqb_refl. cbn [andb]. rewrite IH. reflexivity.
Qed.

Lemma emitClassFunctions_lines c className :
  Appends (emitClassFunctions _namespaceName utf16StringEscape c className) tt
    (fun i =>
       Line i [SArray [SText "void from_json(const json& _j, struct ";
                       ourQualifier _namespaceName true; SName className;
                       SText "& _x)"];
               SText " {"]
       :: linesOf (emitClassFromJsonBody _namespaceName utf16StringEscape c) (S i)
       ++ [Line i [SText "}"];
           BlankLine;
           Line i [SArray [SText "void to_json(json& _j, const struct ";
                           ourQualifier _namespaceName true; SName className;
                           SText "& _x)"];
                   SText " {"];
           Line (S i) (specToJsonParts utf16StringEscape c);
           Line i [SText "}"]]).
Proof.
  unfold emitClassFunctions.
  eapply Appends_ext;
    [|eapply Appends_bind;
       [apply Appends_emitBlock, (proj1 (emitClassFromJsonBody_reads c))
       |eapply Appends_bind;
          [apply Appends_emitNewline
          |apply Appends_emitBlock, emitClassToJsonBody_line]]].
  intros i. cbn beta. cbn [app]. rewrite <- app_assoc. reflexivity.
Qed.

(** C3: the [from_json] emitted for a class reads every property, in
    declared order, under its escaped JSON key: through [get_untyped] where
    the type is [any] or [null], through [get_optional] where it is a union
    with null among its members, and through [_j.at(...).get<T>()]
    otherwise.  With the key missing the first gives an empty value and the
    second an absent optional; the third throws, as it does when the value
    does not coerce, and then the whole function throws: no record comes
    out.  With the key there the first gives the value under it as it is,
    the second the absent optional for null and otherwise the value
    coerced, the third the value coerced.  The function returns a record
    exactly where every read returns, and the record then holds, field
    after field in declared order, what the reads returned. *)
Theorem class_from_json_reads (c : ClassType) (className : Name)
    (V : Type) (get : Sourcelike -> json -> Result V)
    (literal : string -> string) (j : json) :
  let body := linesOf (emitClassFromJsonBody _namespaceName utf16StringEscape c) in
  let reads := specClassReads _namespaceName utf16StringEscape c in
  (exists rest,
     Appends (emitClassFunctions _namespaceName utf16StringEscape c className) tt
       (fun i =>
          Line i [SArray [SText "void from_json(const json& _j, struct ";
                          ourQualifier _namespaceName true; SName className;
                          SText "& _x)"];
                  SText " {"]
          :: body (S i) ++ Line i [SText "}"] :: rest i)) /\
  (forall i, readsOfLines (body i) = Some reads) /\
  (forall i, runClassFromJson get literal (body i) j
             = Some (runReads get literal reads j)) /\
  (forall key, json_find j (literal key) = None ->
     runRead get literal ReadUntyped key j = Ok (FieldUntyped JNull) /\
     (forall T, runRead get literal (ReadOptional T) key j = Ok (FieldOptional None)) /\
     (forall T, isThrown (runRead get literal (ReadStrict T) key j) = true)) /\
  (forall key T v msg,
     json_find j (literal key) = Some v -> get T v = Thrown msg ->
     runRead get literal (ReadStrict T) key j = Thrown msg) /\
  (forall p T,
     In p (properties c) ->
     specPropertyRead _namespaceName (propertyType p) = ReadStrict T ->
     isThrown (runRead get literal (ReadStrict T)
                 (utf16StringEscape (jsonName p)) j) = true ->
     isThrown (runReads get literal reads j) = true) /\
  (forall key v, json_find j (literal key) = Some v ->
     runRead get literal ReadUntyped key j = Ok (FieldUntyped v) /\
     (forall T, runRead get literal (ReadOptional T) key j
                = if is_null v then Ok (FieldOptional None)
                  else (x <- get T v ;; Ok (FieldOptional (Some x)))%result) /\
     (forall T, runRead get literal (ReadStrict T) key j
                = (x <- get T v ;; Ok (FieldTyped x))%result)) /\
  (forall fields,
     runReads get literal reads j = Ok fields <->
     Forall2 (fun p f =>
                fst f = propertyName p /\
                runRead get literal
                  (specPropertyRead _namespaceName (propertyType p))
                  (utf16StringEscape (jsonName p)) j = Ok (snd f))
             (properties c) fields).
Proof.
  intros body reads.
  destruct (emitClassFromJsonBody_reads c) as [_ Hreads].
  split; [|split; [|split; [|split; [|split; [|split; [|split]]]]]].
  - eexists. eapply Appends_ext; [|apply emitClassFunctions_lines].
    intros i. cbn beta. cbn [app]. reflexivity.
  - exact Hreads.
  - intros i. unfold runClassFromJson, body. now rewrite Hreads.
  - intros key Hmissing. unfold runRead, get_untyped, get_optional, json_at.
    rewrite Hmissing. repeat split; reflexivity.
  - intros key T v msg Hfound Hget. unfold runRead, json_at.
    rewrite Hfound. simpl. now rewrite Hget.
  - intros p T Hin Hstrict Hthrown. unfold reads, specClassReads.
    induction (properties c) as [|q rest IH]; [destruct Hin|].
    cbn [map runReads].
    destruct Hin as [->|Hin].
    + rewrite Hstrict.
      destruct (runRead get literal (ReadStrict T) _ j); [discriminate|reflexivity].
    + specialize (IH Hin).
      destruct (runRead get literal
                  (specPropertyRead _namespaceName (propertyType q)) _ j);
        [|reflexivity].
      cbn [bindR].
      destruct (runReads get literal _ j); [discriminate|reflexivity].
  - intros key v Hfound.
    unfold runRead, get_untyped, get_optional, optional_from_json, json_at.
    rewrite Hfound. cbn [bindR]. split; [reflexivity|]. split.
    + intros T. destruct (is_null v); [reflexivity|].
      destruct (get T v); reflexivity.
    + intros T. reflexivity.
  - unfold reads, specClassReads.
    induction (properties c) as [|q rest IH]; intros fields; cbn [map runReads].
    + split.
      * intros H. injection H as <-. constructor.
      * intros H. inversion H. reflexivity.
    + destruct (runRead get literal
                  (specPropertyRead _namespaceName (propertyType q)) _ j)
        as [x|msg] eqn:Eread; cbn [bindR].
      * destruct (runReads get literal _ j) as [others|msg] eqn:Erest; cbn [bindR].
        -- split.
           ++ intros H. injection H as <-. constructor.
              ** split; [reflexivity|exact Eread].
              ** now apply IH.
           ++ intros H. inversion H as [|? f ? fs [Hname Hval] Hrest]; subst.
              apply IH in Hrest. injection Hrest as <-.
              rewrite Eread in Hval. injection Hval as ->.
              destruct f as [n y]. cbn [fst snd] in *. now subst n.
        -- split; [discriminate|].
           intros H. inversion H as [|? f ? fs _ Hrest]; subst.
           apply IH in Hrest. discriminate.
      * split; [discriminate|].
        intros H. inversion H as [|? f ? fs [_ Hval] _]; subst.
        rewrite Eread in Hval. discriminate.
Qed.

(** C6: the [to_json] emitted for a class with no properties assigns the
    explicit empty object [json::object()]; for any other class it assigns
    an object literal with one pair per property, in declared order, the
    escaped JSON key paired with the field.  Either way what it leaves in
    [_j] is an object, never null and never an array, whose members are
    the escaped keys in declared order paired with what the fields encode
    to. *)
Theorem class_to_json_object (c : ClassType) (className : Name)
    (literal : string -> string) (field : Name -> json) :
  let body := linesOf (emitClassToJsonBody utf16StringEscape c) in
  let object :=
    JObject (map (fun kn => (literal (fst kn), field (snd kn)))
                 (specClassPairs utf16StringEscape c)) in
  (exists before,
     Appends (emitClassFunctions _namespaceName utf16StringEscape c className) tt
       (fun i =>
          before i
          ++ Line i [SArray [SText "void to_json(json& _j, const struct ";
                             ourQualifier _namespaceName true; SName className;
                             SText "& _x)"];
                     SText " {"]
          :: body (S i) ++ [Line i [SText "}"]])) /\
  (properties c = [] ->
     forall i, body i = [Line i [SText "_j = json::object();"]]) /\
  (properties c <> [] ->
     forall i, body i =
       [Line i [SText "_j = json{";
                SArray (concat (intersperse [SText ", "]
                          (map (fun p =>
                                  [SText ("{" ++ dquote)%string;
                                   SText (utf16StringEscape (jsonName p));
                                   SText (dquote ++ ", _x.")%string;
                                   SName (propertyName p);
                                   SText "}"])
                               (properties c))));
                SText "};"]]) /\
  (forall i, runClassToJson literal (body i) field = Some object) /\
  is_object object = true /\ is_null object = false /\ is_array object = false.
Proof.
  intros body object.
  assert (Hbody : forall i, body i = [Line i (specToJsonParts utf16StringEscape c)]).
  { intros i. unfold body.
    exact (Appends_linesOf i (emitClassToJsonBody_line c)). }
  split; [|split; [|split; [|split; [|repeat split]]]].
  - exists (fun i =>
      Line i [SArray [SText "void from_json(const json& _j, struct ";
                      ourQualifier _namespaceName true; SName className;
                      SText "& _x)"];
              SText " {"]
      :: linesOf (emitClassFromJsonBody _namespaceName utf16StringEscape c) (S i)
      ++ [Line i [SText "}"]; BlankLine]).
    eapply Appends_ext; [|apply emitClassFunctions_lines].
    intros i. cbn beta. rewrite Hbody. cbn [app]. rewrite <- app_assoc. reflexivity.
  - intros Hempty i. rewrite Hbody. unfold specToJsonParts. now rewrite Hempty.
  - intros Hsome i. rewrite Hbody. unfold specToJsonParts.
    destruct (properties c); [congruence|reflexivity].
  - intros i. rewrite Hbody. unfold specToJsonParts, object, specClassPairs.
    destruct (properties c) as [|p rest]; [reflexivity|].
    unfold runClassToJson. rewrite !String.eqb_refl. cbn [andb].
    rewrite pairsOfArgs_pairParts. reflexivity.
Qed.

End ClassProperties.

Section UnionProperties.

Variable _namespaceName : string.

(** The lines one entry of [functionForKind] adds to the chain. *)
Lemma emitUnionFromJsonBody_lines nonNulls :
  Appends (emitUnionFromJsonBody _namespaceName nonNulls) tt
    (fun i =>
       loopLines
         (fun (onFirst : bool) (entry : string * string) =>
            match find (fun t => kind t =? fst entry) nonNulls with
            | Some _ => false
            | None => onFirst
            end)
         (fun onFirst entry i =>
            match find (fun t => kind t =? fst entry) nonNulls with
            | Some t =>
                [Line i [SText (if onFirst then "if" else "else if");
                         SText " (_j."; SText (snd entry); SText "())"];
                 Line (S i) [SText "_x = _j.get<";
                             cppType _namespaceName t true false;
                             SText ">();"]]
            | None => []
            end)
         functionForKind true i
       ++ [Line i [SText elseThrowLine]]).
Proof.
  unfold emitUnionFromJsonBody.
  eapply Appends_bind; [|apply Appends_emitLine].
  apply Appends_forEach. intros onFirst [kind' func]. cbn [fst snd].
  destruct (find (fun t => kind t =? kind') nonNulls) as [t|].
  - eapply Appends_ext;
      [|eapply Appends_bind;
         [apply Appends_emitLine
         |eapply Appends_bind;
            [apply Appends_indent, Appends_emitLine|apply Appends_ret]]].
    intros i. reflexivity.
  - apply Appends_ret.
Qed.

Lemma branchesOfLines_table nonNulls (table : list DecodeEntry) i : forall onFirst,
  branchesOfLines onFirst
    (loopLines
       (fun (onFirst : bool) (entry : string * string) =>
          match find (fun t => kind t =? fst entry) nonNulls with
          | Some _ => false
          | None => onFirst
          end)
       (fun onFirst entry i =>
          match find (fun t => kind t =? fst entry) nonNulls with
          | Some t =>
              [Line i [SText (if onFirst then "if" else "else if");
                       SText " (_j."; SText (snd entry); SText "())"];
               Line (S i) [SText "_x = _j.get<";
                           cppType _namespaceName t true false;
                           SText ">();"]]
          | None => []
          end)
       (map (fun e => (entryKind e, entryFunc e)) table) onFirst i
     ++ [Line i [SText elseThrowLine]])
  = Some (map (fun b => (entryFunc (fst b), cppType _namespaceName (snd b) true false))
              (specDecodeBranchesOf table nonNulls)).
Proof.
  induction table as [|e table IH]; intros onFirst.
  - reflexivity.
  - cbn [map loopLines specDecodeBranchesOf flat_map fst snd].
    fold (specDecodeBranchesOf table nonNulls).
    destruct (find (fun t => kind t =? entryKind e) nonNulls) as [t|].
    + cbn [app map fst snd]. cbn [branchesOfLines].
      assert (Hkw : ((if onFirst then "if" else "else if")
                     =? (if onFirst then "if" else "else if")) = true)
        by apply String.eqb_refl.
      rewrite Hkw, Nat.eqb_refl. cbn [andb String.eqb Ascii.eqb Bool.eqb].
      rewrite IH. reflexivity.
    + cbn [app map]. apply IH.
Qed.

Lemma runChain_branches (branches : list (DecodeEntry * TypeNode)) (j : json) :
  Forall (fun b => jsonTest (entryFunc (fst b)) = Some (entryTest (fst b))) branches ->
  runChain (map (fun b => (entryFunc (fst b), cppType _namespaceName (snd b) true false))
                branches) j
  = Some match find (fun b => entryTest (fst b) j) branches with
         | Some b => Ok (cppType _namespaceName (snd b) true false)
         | None => Thrown "Could not deserialize"
         end.
Proof.
  induction 1 as [|b rest Hb _ IH]; [reflexivity|].
  cbn [map runChain find]. rewrite Hb.
  destruct (entryTest (fst b) j); [reflexivity|exact IH].
Qed.

Lemma specDecodeBranches_tests nonNulls :
  Forall (fun b => jsonTest (entryFunc (fst b)) = Some (entryTest (fst b)))
         (specDecodeBranches nonNulls).
Proof.
  unfold specDecodeBranches, specDecodeBranchesOf, predicateTable. simpl.
  repeat match goal with
         | |- context [find ?f nonNulls] => destruct (find f nonNulls)
         end;
    repeat constructor.
Qed.

Lemma toString_inj a b : toString a = toString b -> a = b.
Proof.
  unfold toString. intros H.
  apply DecimalNat.Unsigned.to_uint_inj.
  assert (Hs : Some (Nat.to_uint a) = Some (Nat.to_uint b))
    by (rewrite <- !NilEmpty.usu; now rewrite H).
  now injection Hs.
Qed.

Lemma emitUnionSwitchBody_lines nonNulls :
  Appends (emitUnionSwitchBody _namespaceName nonNulls) tt
    (fun i =>
       loopLines (fun n _ => S n)
         (fun n t i =>
            [Line i [SText "case "; SText (toString n); SText ":"];
             Line (S i) [SText "_j = boost::get<";
                         cppType _namespaceName t true false;
                         SText ">(_x);"];
             Line (S i) [SText "break;"]])
         nonNulls 0 i
       ++ [Line i [SText defaultThrowLine]]).
Proof.
  unfold emitUnionSwitchBody.
  eapply Appends_bind; [|apply Appends_emitLine].
  apply Appends_forEach. intros n t.
  eapply Appends_ext;
    [|eapply Appends_bind;
       [apply Appends_emitLine
       |eapply Appends_bind;
          [apply Appends_indent;
           eapply Appends_bind; [apply Appends_emitLine|apply Appends_emitLine]
          |apply Appends_ret]]].
  intros i. reflexivity.
Qed.

Lemma casesOfLines_loop nonNulls i : forall n,
  casesOfLines
    (loopLines (fun n _ => S n)
       (fun n t i =>
          [Line i [SText "case "; SText (toString n); SText ":"];
           Line (S i) [SText "_j = boost::get<";
                       cppType _namespaceName t true false;
                       SText ">(_x);"];
           Line (S i) [SText "break;"]])
       nonNulls n i
     ++ [Line i [SText defaultThrowLine]])
  = Some (List.combine (map toString (seq n (length nonNulls)))
                  (map (fun t => cppType _namespaceName t true false) nonNulls),
          true).
Proof.
  induction nonNulls as [|t rest IH]; intros n.
  - reflexivity.
  - cbn [loopLines app length seq map List.combine]. cbn [casesOfLines].
    rewrite !Nat.eqb_refl. cbn [andb String.eqb Ascii.eqb Bool.eqb].
    rewrite IH. reflexivity.
Qed.

Lemma find_case {X} (l : list X) : forall n which x,
  nth_error l which = Some x ->
  find (fun c => fst c =? toString (n + which))
       (List.combine (map toString (seq n (length l))) l)
  = Some (toString (n + which), x).
Proof.
  induction l as [|y rest IH]; intros n which x Hnth.
  - destruct which; discriminate.
  - cbn [length seq map List.combine find fst].
    destruct which as [|which].
    + simpl in Hnth. injection Hnth as ->.
      rewrite Nat.add_0_r, String.eqb_refl. reflexivity.
    + simpl in Hnth.
      destruct (toString n =? toString (n + S which)) eqn:E.
      * apply String.eqb_eq, toString_inj in E. lia.
      * replace (n + S which) with (S n + which) by lia. now apply IH.
Qed.

Lemma find_no_case {X} (l : list X) : forall n which,
  which < n \/ n + length l <= which ->
  find (fun c => fst c =? toString which)
       (List.combine (map toString (seq n (length l))) l) = None.
Proof.
  induction l as [|y rest IH]; intros n which Hout; [reflexivity|].
  cbn [length seq map List.combine find fst].
  destruct (toString n =? toString which) eqn:E.
  - apply String.eqb_eq, toString_inj in E. simpl in Hout. lia.
  - apply IH. simpl in Hout. lia.
Qed.

Lemma emitUnionFunctions_lines members :
  Appends (emitUnionFunctions _namespaceName members) tt
    (fun i =>
       Line i [SArray [SText "void from_json(const json& _j, ";
                       cppTypeInOptional _namespaceName
                         (snd (removeNullFromUnion members)) true false;
                       SText "& _x)"];
               SText " {"]
       :: linesOf (emitUnionFromJsonBody _namespaceName
                     (snd (removeNullFromUnion members))) (S i)
       ++ [Line i [SText "}"];
           BlankLine;
           Line i [SArray [SText "void to_json(json& _j, const ";
                           cppTypeInOptional _namespaceName
                             (snd (removeNullFromUnion members)) true false;
                           SText "& _x)"];
                   SText " {"];
           Line (S i) [SText "switch (_x.which())"; SText " {"]]
       ++ linesOf (emitUnionSwitchBody _namespaceName
                     (snd (removeNullFromUnion members))) (S (S i))
       ++ [Line (S i) [SText "}"]; Line i [SText "}"]]).
Proof.
  unfold emitUnionFunctions.
  destruct (removeNullFromUnion members) as [hasNull nonNulls]. cbn [snd].
  eapply Appends_ext;
    [|eapply Appends_bind;
       [apply Appends_emitBlock,
          (Appends_own_lines (emitUnionFromJsonBody_lines nonNulls))
       |eapply Appends_bind;
          [apply Appends_emitNewline
          |apply Appends_emitBlock; unfold emitUnionToJsonBody;
           apply Appends_emitBlock,
             (Appends_own_lines (emitUnionSwitchBody_lines nonNulls))]]].
  intros i. cbn beta. cbn [app]. rewrite <- !app_assoc. reflexivity.
Qed.

Lemma specDecodeBranchesOf_kinds table nonNulls :
  map (fun b => entryKind (fst b)) (specDecodeBranchesOf table nonNulls)
  = filter (fun k => existsb (fun t => kind t =? k) nonNulls) (map entryKind table).
Proof.
  induction table as [|e table IH]; [reflexivity|].
  cbn [specDecodeBranchesOf flat_map map filter].
  fold (specDecodeBranchesOf table nonNulls).
  destruct (find (fun t => kind t =? entryKind e) nonNulls) as [t|] eqn:Ef.
  - apply find_some in Ef. destruct Ef as [Hin Hk].
    assert (Hex : existsb (fun t => kind t =? entryKind e) nonNulls = true)
      by (apply existsb_exists; now exists t).
    rewrite Hex. cbn [app map fst]. now rewrite IH.
  - assert (Hex : existsb (fun t => kind t =? entryKind e) nonNulls = false).
    { destruct (existsb _ nonNulls) eqn:E; [|reflexivity].
      apply existsb_exists in E. destruct E as [t [Hin Hk]].
      now rewrite (find_none _ _ Ef t Hin) in Hk. }
    rewrite Hex. exact IH.
Qed.

Lemma specDecodeBranchesOf_first table nonNulls b :
  In b (specDecodeBranchesOf table nonNulls) ->
  find (fun t => kind t =? entryKind (fst b)) nonNulls = Some (snd b).
Proof.
  unfold specDecodeBranchesOf. intros Hin. apply in_flat_map in Hin.
  destruct Hin as [e [_ Hin]].
  destruct (find (fun t => kind t =? entryKind e) nonNulls) as [t|] eqn:Ef;
    [|destruct Hin].
  destruct Hin as [<-|[]]. exact Ef.
Qed.

Lemma find_first_match {X} (f : X -> bool) pre b post :
  (forall b', In b' pre -> f b' = false) -> f b = true ->
  find f (pre ++ b :: post) = Some b.
Proof.
  intros Hpre Hb. induction pre as [|x pre IH]; simpl.
  - now rewrite Hb.
  - rewrite (Hpre x) by now left. apply IH. intros b' Hin. apply Hpre. now right.
Qed.

Lemma find_no_match {X} (f : X -> bool) l :
  (forall b, In b l -> f b = false) -> find f l = None.
Proof.
  intros H. induction l as [|x l IH]; [reflexivity|]. simpl.
  rewrite (H x) by now left. apply IH. intros b Hin. apply H. now right.
Qed.

Lemma runUnionFromJson_specDecode nonNulls j i :
  runUnionFromJson (linesOf (emitUnionFromJsonBody _namespaceName nonNulls) i) j
  = Some match specDecode nonNulls j with
         | Ok t => Ok (cppType _namespaceName t true false)
         | Thrown msg => Thrown msg
         end.
Proof.
  unfold runUnionFromJson.
  rewrite (Appends_linesOf i (emitUnionFromJsonBody_lines nonNulls)).
  change functionForKind
    with (map (fun e => (entryKind e, entryFunc e)) predicateTable).
  rewrite branchesOfLines_table.
  fold (specDecodeBranches nonNulls).
  rewrite (runChain_branches j (specDecodeBranches_tests nonNulls)).
  unfold specDecode, specDecodeBranch.
  destruct (find _ (specDecodeBranches nonNulls)); reflexivity.
Qed.

(** C4: the [from_json] emitted for a union is a chain of tests in the
    order of the predicate table (boolean, integer, double, string, object
    as class, object as map, array), with a branch for just the kinds
    present among the members other than null.  Run on an input, the first
    branch whose test holds decodes, as its own member's type; where no
    test holds the chain ends in a throw.  So a JSON array is decoded as
    the array member wherever that member stands among the members. *)
Theorem union_from_json_priority (members : list TypeNode) (j : json) :
  let nonNulls := snd (removeNullFromUnion members) in
  let body := linesOf (emitUnionFromJsonBody _namespaceName nonNulls) in
  (exists after,
     Appends (emitUnionFunctions _namespaceName members) tt
       (fun i =>
          Line i [SArray [SText "void from_json(const json& _j, ";
                          cppTypeInOptional _namespaceName nonNulls true false;
                          SText "& _x)"];
                  SText " {"]
          :: body (S i) ++ Line i [SText "}"] :: after i)) /\
  (forall i,
     branchesOfLines true (body i)
     = Some (map (fun b => (entryFunc (fst b),
                            cppType _namespaceName (snd b) true false))
                 (specDecodeBranches nonNulls))) /\
  map (fun b => entryKind (fst b)) (specDecodeBranches nonNulls)
  = filter (fun k => existsb (fun t => kind t =? k) nonNulls)
           ["bool"; "integer"; "double"; "string"; "class"; "map"; "array"] /\
  (forall i,
     runUnionFromJson (body i) j
     = Some match specDecode nonNulls j with
            | Ok t => Ok (cppType _namespaceName t true false)
            | Thrown msg => Thrown msg
            end) /\
  (forall pre b post,
     specDecodeBranches nonNulls = pre ++ b :: post ->
     (forall b', In b' pre -> entryTest (fst b') j = false) ->
     entryTest (fst b) j = true ->
     specDecode nonNulls j = Ok (snd b)) /\
  ((forall b, In b (specDecodeBranches nonNulls) -> entryTest (fst b) j = false) ->
   forall i, runUnionFromJson (body i) j = Some (Thrown "Could not deserialize")) /\
  (forall items t,
     find (fun t => kind t =? "array") nonNulls = Some t ->
     specDecode nonNulls (JArray items) = Ok t).
Proof.
  intros nonNulls body.
  split; [|split; [|split; [|split; [|split; [|split]]]]].
  - exists (fun i =>
      [BlankLine;
       Line i [SArray [SText "void to_json(json& _j, const ";
                       cppTypeInOptional _namespaceName nonNulls true false;
                       SText "& _x)"];
               SText " {"];
       Line (S i) [SText "switch (_x.which())"; SText " {"]]
      ++ linesOf (emitUnionSwitchBody _namespaceName nonNulls) (S (S i))
      ++ [Line (S i) [SText "}"]; Line i [SText "}"]]).
    eapply Appends_ext; [|apply emitUnionFunctions_lines].
    intros i. reflexivity.
  - intros i. unfold body.
    rewrite (Appends_linesOf i (emitUnionFromJsonBody_lines nonNulls)).
    change functionForKind
      with (map (fun e => (entryKind e, entryFunc e)) predicateTable).
    apply branchesOfLines_table.
  - apply (specDecodeBranchesOf_kinds predicateTable nonNulls).
  - intros i. apply runUnionFromJson_specDecode.
  - intros pre b post Hsplit Hpre Hb. unfold specDecode, specDecodeBranch.
    rewrite Hsplit.
    now rewrite (find_first_match (fun b => entryTest (fst b) j) pre b post Hpre Hb).
  - intros Hnone i. unfold body. rewrite runUnionFromJson_specDecode.
    unfold specDecode, specDecodeBranch.
    now rewrite (find_no_match (fun b => entryTest (fst b) j) _ Hnone).
  - intros items t Harray.
    unfold specDecode, specDecodeBranch, specDecodeBranches, specDecodeBranchesOf,
      predicateTable.
    cbn [flat_map entryKind]. rewrite Harray.
    repeat match goal with
           | |- context [find ?f nonNulls] => destruct (find f nonNulls)
           end;
      reflexivity.
Qed.

(** Where a test holds on an element of a list, [find] on a longer list
    stops in it. *)
Lemma find_earlier {A} (f : A -> bool) (pre rest : list A) :
  existsb f pre = true ->
  exists x, In x pre /\ find f (pre ++ rest) = Some x.
Proof.
  induction pre as [|a pre IH]; simpl; [discriminate|].
  destruct (f a) eqn:E.
  - intros _. exists a. split; [now left|reflexivity].
  - simpl. intros H. destruct (IH H) as [x [Hin Hfind]].
    exists x. split; [now right|exact Hfind].
Qed.

(** C10: the [from_json] emitted for a union has at most one branch per
    node kind, and the branch of a kind decodes as the first member of that
    kind; what the emitted chain decodes, on any input, is the first
    member of its kind, so a member that shares its kind with an earlier
    member has no branch and is never decoded.  In a union with a class
    member and a map member every JSON object is decoded as the first class
    member; no input takes the map branch, and the map member is never
    decoded. *)
Theorem union_from_json_one_branch_per_kind (members : list TypeNode) :
  let nonNulls := snd (removeNullFromUnion members) in
  let body := linesOf (emitUnionFromJsonBody _namespaceName nonNulls) in
  (forall i,
     branchesOfLines true (body i)
     = Some (map (fun b => (entryFunc (fst b),
                            cppType _namespaceName (snd b) true false))
                 (specDecodeBranches nonNulls))) /\
  NoDup (map (fun b => entryKind (fst b)) (specDecodeBranches nonNulls)) /\
  (forall b, In b (specDecodeBranches nonNulls) ->
             find (fun t => kind t =? entryKind (fst b)) nonNulls = Some (snd b)) /\
  (forall i j, runUnionFromJson (body i) j
               = Some (match specDecode nonNulls j with
                       | Ok t => Ok (cppType _namespaceName t true false)
                       | Thrown msg => Thrown msg
                       end)) /\
  (forall j t, specDecode nonNulls j = Ok t ->
               find (fun t' => kind t' =? kind t) nonNulls = Some t) /\
  (forall pre t post,
     nonNulls = pre ++ t :: post ->
     existsb (fun t' => kind t' =? kind t) pre = true ->
     ~ In t pre ->
     ~ In t (map snd (specDecodeBranches nonNulls)) /\
     forall j, specDecode nonNulls j <> Ok t) /\
  (forall c m,
     find (fun t => kind t =? "class") nonNulls = Some c ->
     find (fun t => kind t =? "map") nonNulls = Some m ->
     (forall j, is_object j = true ->
        specDecodeBranch nonNulls j
          = Some (mkDecodeEntry "class" "is_object" is_object, c) /\
        forall i, runUnionFromJson (body i) j
                  = Some (Ok (cppType _namespaceName c true false))) /\
     (forall j b, specDecodeBranch nonNulls j = Some b ->
                  entryKind (fst b) <> "map") /\
     (forall j, specDecode nonNulls j <> Ok m)).
Proof.
  intros nonNulls body.
  assert (Hfirst : forall b, In b (specDecodeBranches nonNulls) ->
            find (fun t => kind t =? kind (snd b)) nonNulls = Some (snd b)).
  { intros b Hin.
    pose proof (specDecodeBranchesOf_first _ _ _ Hin) as Hf.
    pose proof (find_some _ _ Hf) as [_ Hk].
    apply String.eqb_eq in Hk. rewrite Hk. exact Hf. }
  assert (Hdecoded : forall j t, specDecode nonNulls j = Ok t ->
            exists b, In b (specDecodeBranches nonNulls) /\ snd b = t /\
                      specDecodeBranch nonNulls j = Some b).
  { intros j t. unfold specDecode.
    destruct (specDecodeBranch nonNulls j) as [b|] eqn:Ef; [|discriminate].
    intros Ht. injection Ht as <-. exists b.
    pose proof Ef as Hin. unfold specDecodeBranch in Hin.
    apply find_some in Hin. destruct Hin as [Hin _].
    split; [exact Hin|]. split; reflexivity. }
  assert (Hrun : forall i j, runUnionFromJson (body i) j
                   = Some (match specDecode nonNulls j with
                           | Ok t => Ok (cppType _namespaceName t true false)
                           | Thrown msg => Thrown msg
                           end)).
  { intros i j. unfold body. apply runUnionFromJson_specDecode. }
  split; [|split; [|split; [|split; [|split; [|split]]]]].
  - intros i. unfold body.
    rewrite (Appends_linesOf i (emitUnionFromJsonBody_lines nonNulls)).
    change functionForKind
      with (map (fun e => (entryKind e, entryFunc e)) predicateTable).
    apply branchesOfLines_table.
  - unfold specDecodeBranches. rewrite specDecodeBranchesOf_kinds.
    apply NoDup_filter. unfold predicateTable. cbn [map entryKind].
    repeat (constructor; [simpl; intuition discriminate|]). constructor.
  - intros b. apply specDecodeBranchesOf_first.
  - exact Hrun.
  - intros j t Ht. destruct (Hdecoded j t Ht) as [b [Hin [<- _]]].
    now apply Hfirst.
  - intros pre t post Hsplit Hpre Hnotin.
    destruct (find_earlier _ pre (t :: post) Hpre) as [x [Hx Hfind]].
    rewrite <- Hsplit in Hfind.
    assert (Hnever : forall b, In b (specDecodeBranches nonNulls) -> snd b <> t).
    { intros b Hin Hb. specialize (Hfirst b Hin). rewrite Hb, Hfind in Hfirst.
      injection Hfirst as ->. contradiction. }
    split.
    + intros Hin. apply in_map_iff in Hin. destruct Hin as [b [Hb Hin]].
      exact (Hnever b Hin Hb).
    + intros j Ht. destruct (Hdecoded j t Ht) as [b [Hin [Hb _]]].
      exact (Hnever b Hin Hb).
  - intros c m Hclass Hmap.
    assert (Hobject : forall j, is_object j = true ->
              specDecodeBranch nonNulls j
              = Some (mkDecodeEntry "class" "is_object" is_object, c)).
    { intros j Hj. destruct j; try discriminate.
      unfold specDecodeBranch, specDecodeBranches, specDecodeBranchesOf,
        predicateTable.
      cbn [flat_map entryKind]. rewrite Hclass, Hmap.
      repeat match goal with
             | |- context [find ?f nonNulls] => destruct (find f nonNulls)
             end;
        reflexivity. }
    assert (Hnomap : forall j b, specDecodeBranch nonNulls j = Some b ->
              entryKind (fst b) <> "map").
    { intros j b.
      unfold specDecodeBranch, specDecodeBranches, specDecodeBranchesOf,
        predicateTable.
      cbn [flat_map entryKind]. rewrite Hclass, Hmap.
      repeat match goal with
             | |- context [find ?f nonNulls] => destruct (find f nonNulls)
             end;
        destruct j; cbn; intros Hb; try discriminate;
        injection Hb as <-; cbn; discriminate. }
    split; [|split].
    + intros j Hj. split; [now apply Hobject|].
      intros i. rewrite Hrun. unfold specDecode. now rewrite (Hobject j Hj).
    + exact Hnomap.
    + intros j Ht. destruct (Hdecoded j m Ht) as [b [Hin [Hb Hbranch]]].
      apply (Hnomap j b Hbranch).
      pose proof (specDecodeBranchesOf_first _ _ _ Hin) as Hf.
      pose proof (find_some _ _ Hf) as [_ Hk]. rewrite Hb in Hk.
      pose proof (find_some _ _ Hmap) as [_ Hm].
      apply String.eqb_eq in Hk. apply String.eqb_eq in Hm. congruence.
Qed.

(** C5, amended: the [to_json] emitted for a union switches on
    [which()]; its cases are numbered from 0 in the order of the members
    other than null, the order the variant of the typedef lists them in,
    and the case of a member encodes through [boost::get] at that member's
    type.  Every alternative has its case, and after the cases comes a
    default case that throws. *)
Theorem union_to_json_switch (members : list TypeNode) :
  let nonNulls := snd (removeNullFromUnion members) in
  let body := linesOf (emitUnionSwitchBody _namespaceName nonNulls) in
  (exists before,
     Appends (emitUnionFunctions _namespaceName members) tt
       (fun i =>
          before i
          ++ Line i [SArray [SText "void to_json(json& _j, const ";
                             cppTypeInOptional _namespaceName nonNulls true false;
                             SText "& _x)"];
                     SText " {"]
          :: Line (S i) [SText "switch (_x.which())"; SText " {"]
          :: body (S (S i))
          ++ [Line (S i) [SText "}"]; Line i [SText "}"]])) /\
  (forall i,
     casesOfLines (body i)
     = Some (List.combine (map toString (seq 0 (length nonNulls)))
                          (map (fun t => cppType _namespaceName t true false) nonNulls),
             true)) /\
  (forall i which t,
     nth_error nonNulls which = Some t ->
     runSwitch (body i) which
     = Some (Ok (Some (cppType _namespaceName t true false)))) /\
  (forall i which,
     length nonNulls <= which ->
     runSwitch (body i) which = Some (Thrown "This should not happen")) /\
  (forall i, In (Line i [SText defaultThrowLine]) (body i)) /\
  (fst (removeNullFromUnion members) = false -> 2 <= length nonNulls ->
   variantType _namespaceName members false
   = Ok (SArray [SText "boost::variant<";
                 SArray (intersperse (SText ", ")
                           (map (fun t => cppType _namespaceName t false true)
                                nonNulls));
                 SText ">"])).
Proof.
  intros nonNulls body.
  assert (Hbody : forall i, body i =
            loopLines (fun n _ => S n)
              (fun n t i =>
                 [Line i [SText "case "; SText (toString n); SText ":"];
                  Line (S i) [SText "_j = boost::get<";
                              cppType _namespaceName t true false;
                              SText ">(_x);"];
                  Line (S i) [SText "break;"]])
              nonNulls 0 i
            ++ [Line i [SText defaultThrowLine]]).
  { intros i. exact (Appends_linesOf i (emitUnionSwitchBody_lines nonNulls)). }
  split; [|split; [|split; [|split; [|split]]]].
  - exists (fun i =>
      Line i [SArray [SText "void from_json(const json& _j, ";
                      cppTypeInOptional _namespaceName nonNulls true false;
                      SText "& _x)"];
              SText " {"]
      :: linesOf (emitUnionFromJsonBody _namespaceName nonNulls) (S i)
      ++ [Line i [SText "}"]; BlankLine]).
    eapply Appends_ext; [|apply emitUnionFunctions_lines].
    intros i. cbn beta. fold nonNulls. fold body.
    cbn [app]. rewrite <- !app_assoc. reflexivity.
  - intros i. rewrite Hbody. apply casesOfLines_loop.
  - intros i which t Hnth. unfold runSwitch.
    rewrite Hbody, casesOfLines_loop.
    pose proof (find_case (map (fun t => cppType _namespaceName t true false) nonNulls)
                  0 which (map_nth_error _ _ _ Hnth)) as Hfind.
    rewrite length_map in Hfind. cbn [Nat.add] in Hfind. now rewrite Hfind.
  - intros i which Hout. unfold runSwitch.
    rewrite Hbody, casesOfLines_loop.
    pose proof (@find_no_case _
                  (map (fun t => cppType _namespaceName t true false) nonNulls)
                  0 which) as Hfind.
    rewrite length_map in Hfind. rewrite Hfind by (right; simpl; lia). reflexivity.
  - intros i. rewrite Hbody. apply in_or_app. right. now left.
  - intros HnoNull Hlen. unfold variantType.
    destruct (removeNullFromUnion members) as [hasNull nn] eqn:E.
    cbn [fst snd] in *. subst hasNull. subst nonNulls. cbn [snd] in *.
    destruct (length nn <? 2)%nat eqn:El; [apply Nat.ltb_lt in El; lia|].
    cbn [negb]. rewrite cppTypeInOptional_variant by lia. reflexivity.
Qed.

End UnionProperties.

Lemma default_case_emitted :
  In (Line 2 [SText defaultThrowLine])
     (linesOf (emitUnionFunctions "quicktype" [integerType; stringType]) 0).
Proof. vm_compute. do 16 right. left. reflexivity. Qed.

(** C5 as stated does not hold: the switch emitted for the union of
    integer and string has a default case. *)
Lemma union_to_json_has_default_case :
  ~ specNoDefaultCase
      (linesOf (emitUnionFunctions "quicktype" [integerType; stringType]) 0).
Proof.
  intros H. pose proof (H _ default_case_emitted) as Hdefault.
  assert (E : isDefaultCase (Line 2 [SText defaultThrowLine]) = true)
    by (vm_compute; reflexivity).
  rewrite E in Hdefault. discriminate Hdefault.
Qed.

(* ===================================================================== *)
(** * The properties at sample inputs *)
(* ===================================================================== *)

Lemma combineTypeAttributes_left_fold_witness :
  Forall (fun b => wellFormed b = true) sampleBags /\
  match combineTypeAttributes sampleBags with
  | Ok r =>
      forall k,
        combinedValue k sampleBags = Ok (tryGetInAttributes k r) /\
        (Forall (fun e => combine (fst e) = combine k) (entriesOf k sampleBags) ->
         combineAll k (map snd (entriesOf k sampleBags))
         = Ok (tryGetInAttributes k r)) /\
        (forall k' v, entriesOf k sampleBags = [(k', v)] ->
                      tryGetInAttributes k r = Some v)
  | Thrown msg => exists k, combinedValue k sampleBags = Thrown msg
  end.
Proof.
  assert (Hwf : Forall (fun b => wellFormed b = true) sampleBags)
    by (repeat (constructor; [vm_compute; reflexivity|]); constructor).
  exact (conj Hwf (proj2 (proj2 (combineTypeAttributes_left_fold Hwf)))).
Defined.

Lemma uncombinable_kind_merge_is_fatal_witness :
  Forall (fun bag => wellFormed bag = true)
         ([] ++ makeAttributes sampleUncombinable 1
             :: [] ++ makeAttributes sampleUncombinable 2 :: []) /\
  exists msg,
    combineTypeAttributes
      [makeAttributes sampleUncombinable 1; makeAttributes sampleUncombinable 2]
    = Thrown msg.
Proof.
  assert (Hwf : Forall (fun bag => wellFormed bag = true)
                  ([] ++ makeAttributes sampleUncombinable 1
                      :: [] ++ makeAttributes sampleUncombinable 2 :: []))
    by (repeat (constructor; [vm_compute; reflexivity|]); constructor).
  split; [exact Hwf|].
  exact (proj1 (proj2 (@uncombinable_kind_merge_is_fatal nat _ "provenance"))
           [] [] [] (makeAttributes sampleUncombinable 1)
           (makeAttributes sampleUncombinable 2) 1 2
           Hwf eq_refl eq_refl).
Defined.

(** C7 as stated fails: a value held under a kind created without a combine
    function, in the first bag, and a value held under a kind of the same
    name that has one, in the second: the kind is present in both bags, and
    the merge returns a bag, the two values combined. *)
Lemma uncombinable_kind_merged_by_namesake :
  sampleUncombinable = newTypeAttributeKind "provenance" None /\
  combineTypeAttributes
    [makeAttributes sampleUncombinable 2; makeAttributes sampleCombinable 5]
  = Ok (makeAttributes sampleCombinable 7) /\
  ~ specUncombinableMergeThrows sampleUncombinable
      [makeAttributes sampleUncombinable 2; makeAttributes sampleCombinable 5].
Proof.
  assert (Hmerge : combineTypeAttributes
                     [makeAttributes sampleUncombinable 2;
                      makeAttributes sampleCombinable 5]
                   = Ok (makeAttributes sampleCombinable 7))
    by (vm_compute; reflexivity).
  split; [reflexivity|]. split; [exact Hmerge|].
  unfold specUncombinableMergeThrows. rewrite Hmerge.
  assert (Hboth : length (holdersOf sampleUncombinable
                            [makeAttributes sampleUncombinable 2;
                             makeAttributes sampleCombinable 5]) = 2)
    by (vm_compute; reflexivity).
  rewrite Hboth. intros H. specialize (H (le_n 2)). discriminate H.
Qed.

Lemma setDefaultInAttributes_default_once_witness :
  tryGetInAttributes descriptionTypeAttributeKind emptyTypeAttributes = None /\
  setDefaultInAttributes descriptionTypeAttributeKind emptyTypeAttributes
    sampleMakeDefault []
  = (setInAttributes descriptionTypeAttributeKind emptyTypeAttributes ["none"],
     ["makeDefault"]) /\
  tryGetInAttributes descriptionTypeAttributeKind
    (makeAttributes descriptionTypeAttributeKind ["kept"]) = Some ["kept"] /\
  setDefaultInAttributes descriptionTypeAttributeKind
    (makeAttributes descriptionTypeAttributeKind ["kept"]) sampleMakeDefault []
  = (makeAttributes descriptionTypeAttributeKind ["kept"], []).
Proof.
  split; [reflexivity|]. split.
  - exact (proj1 (proj1 (proj2 (setDefaultInAttributes_default_once
                                  descriptionTypeAttributeKind emptyTypeAttributes
                                  sampleMakeDefault [])) eq_refl)).
  - split; [reflexivity|].
    exact (proj1 (proj1 (setDefaultInAttributes_default_once
                           descriptionTypeAttributeKind
                           (makeAttributes descriptionTypeAttributeKind ["kept"])
                           sampleMakeDefault []) ["kept"] eq_refl)).
Defined.

Lemma kind_equality_is_by_name_witness :
  name (@newTypeAttributeKind (list string) "description" None)
  = name descriptionTypeAttributeKind /\
  tryGetInAttributes descriptionTypeAttributeKind
    (setInAttributes (newTypeAttributeKind "description" None)
                     emptyTypeAttributes ["x"])
  = Some ["x"].
Proof.
  split; [reflexivity|].
  exact (proj1 (proj2 (proj2 (@kind_equality_is_by_name (list string) _
                                (newTypeAttributeKind "description" None)
                                descriptionTypeAttributeKind eq_refl)))
           emptyTypeAttributes ["x"]).
Defined.

Lemma union_cppType_witness :
  removeNullFromUnion sampleNullableUnion = (true, [integerType; stringType]) /\
  2 <= length [integerType; stringType] /\
  variantType "quicktype" sampleNullableUnion false
  = Ok (SArray [SText "boost::optional<";
                SArray [SText "boost::variant<";
                        SArray [SText "int64_t"; SText ", "; SText "std::string"];
                        SText ">"];
                SText ">"]).
Proof.
  split; [reflexivity|]. split; [apply le_n|].
  exact (proj1 (proj1 (proj2 (@union_cppType "quicktype" (NameToken "Choice")
                                sampleNullableUnion true [integerType; stringType]
                                false true eq_refl))
                  (le_n 2))).
Defined.

Lemma class_from_json_reads_witness :
  (In (mkProperty (NameToken "id") "id" integerType) (properties sampleClass) /\
   specPropertyRead "quicktype" integerType = ReadStrict (SText "int64_t") /\
   isThrown (runRead sampleGet (fun s => s) (ReadStrict (SText "int64_t")) "id"
               (JObject [])) = true /\
   isThrown (runReads sampleGet (fun s => s)
               (specClassReads "quicktype" (fun s => s) sampleClass) (JObject []))
   = true) /\
  (json_find (JObject [("id", JNumberInteger 7)]) "id" = Some (JNumberInteger 7) /\
   runRead sampleGet (fun s => s) ReadUntyped "id" (JObject [("id", JNumberInteger 7)])
   = Ok (FieldUntyped (JNumberInteger 7))).
Proof.
  assert (Hin : In (mkProperty (NameToken "id") "id" integerType)
                   (properties sampleClass)) by (left; reflexivity).
  split.
  - split; [exact Hin|]. split; [reflexivity|]. split; [reflexivity|].
    exact (proj1 (proj2 (proj2 (proj2 (proj2 (proj2
             (@class_from_json_reads "quicktype" (fun s => s) sampleClass
                (NameToken "Sample") json sampleGet (fun s => s) (JObject [])))))))
             (mkProperty (NameToken "id") "id" integerType) (SText "int64_t")
             Hin eq_refl eq_refl).
  - split; [reflexivity|].
    exact (proj1 (proj1 (proj2 (proj2 (proj2 (proj2 (proj2 (proj2
             (@class_from_json_reads "quicktype" (fun s => s) sampleClass
                (NameToken "Sample") json sampleGet (fun s => s)
                (JObject [("id", JNumberInteger 7)]))))))))
             "id" (JNumberInteger 7) eq_refl)).
Defined.

Lemma union_from_json_priority_witness :
  find (fun t => kind t =? "array") (snd (removeNullFromUnion sampleUnion))
  = Some (arrayType boolType) /\
  specDecode (snd (removeNullFromUnion sampleUnion))
             (JArray [JBoolean true; JBoolean false])
  = Ok (arrayType boolType).
Proof.
  split; [reflexivity|].
  exact (proj2 (proj2 (proj2 (proj2 (proj2 (proj2
           (@union_from_json_priority "quicktype" sampleUnion JNull))))))
           [JBoolean true; JBoolean false] (arrayType boolType) eq_refl).
Defined.

Lemma union_to_json_switch_witness :
  nth_error (snd (removeNullFromUnion sampleUnion)) 2 = Some (arrayType boolType) /\
  runSwitch (linesOf (emitUnionSwitchBody "quicktype"
                        (snd (removeNullFromUnion sampleUnion))) 2) 2
  = Some (Ok (Some (cppType "quicktype" (arrayType boolType) true false))).
Proof.
  split; [reflexivity|].
  exact (proj1 (proj2 (proj2 (@union_to_json_switch "quicktype" sampleUnion)))
           2 2 (arrayType boolType) eq_refl).
Defined.

Lemma class_to_json_object_witness :
  properties (mkClassType []) = [] /\
  linesOf (emitClassToJsonBody (fun s => s) (mkClassType [])) 1
  = [Line 1 [SText "_j = json::object();"]].
Proof.
  split; [reflexivity|].
  exact (proj1 (proj2 (@class_to_json_object "quicktype" (fun s => s)
                         (mkClassType []) (NameToken "Empty")
                         (fun s => s) (fun _ => JNull)))
           eq_refl 1).
Defined.

Lemma union_from_json_one_branch_per_kind_witness :
  (find (fun t => kind t =? "class") (snd (removeNullFromUnion sampleObjectUnion))
   = Some (classType (NameToken "Point")) /\
   find (fun t => kind t =? "map") (snd (removeNullFromUnion sampleObjectUnion))
   = Some (mapType stringType) /\
   is_object (JObject []) = true /\
   specDecodeBranch (snd (removeNullFromUnion sampleObjectUnion)) (JObject [])
   = Some (mkDecodeEntry "class" "is_object" is_object,
           classType (NameToken "Point"))) /\
  (snd (removeNullFromUnion sampleArraysUnion)
   = [arrayType integerType; stringType] ++ arrayType stringType :: [] /\
   existsb (fun t' => kind t' =? kind (arrayType stringType))
           [arrayType integerType; stringType] = true /\
   ~ In (arrayType stringType) [arrayType integerType; stringType] /\
   forall j, specDecode (snd (removeNullFromUnion sampleArraysUnion)) j
             <> Ok (arrayType stringType)).
Proof.
  split.
  - split; [reflexivity|]. split; [reflexivity|]. split; [reflexivity|].
    exact (proj1 (proj1 (proj2 (proj2 (proj2 (proj2 (proj2 (proj2
             (@union_from_json_one_branch_per_kind "quicktype"
                sampleObjectUnion))))))
             (classType (NameToken "Point")) (mapType stringType)
             eq_refl eq_refl)
             (JObject []) eq_refl)).
  - assert (Hnotin : ~ In (arrayType stringType)
                       [arrayType integerType; stringType])
      by (simpl; intros [H|[H|[]]]; discriminate H).
    split; [reflexivity|]. split; [reflexivity|]. split; [exact Hnotin|].
    exact (proj2 (proj1 (proj2 (proj2 (proj2 (proj2 (proj2
             (@union_from_json_one_branch_per_kind "quicktype"
                sampleArraysUnion))))))
             [arrayType integerType; stringType] (arrayType stringType) []
             eq_refl eq_refl Hnotin)).
Defined.

(* ===================================================================== *)
(** * Further properties of the attribute algebra *)
(* ===================================================================== *)

Section AttributeLaws.

Context {T : Type} {strictT : StrictEquality T}.
Implicit Types (k key : TypeAttributeKind T) (m a c : TypeAttributes T).

Lemma sameKey_equals k1 k2 : sameKey k1 k2 = equals k1 (AKind k2).
Proof.
  destruct (equals k1 (AKind k2)) eqn:E.
  - apply sameKey_name. unfold equals in E. now apply String.eqb_eq.
  - unfold sameKey. rewrite E. apply andb_false_r.
Qed.

(** X1: what a bag holds after [modifyInAttributes].  The slot of the kind
    holds what the modifier returned for the old slot, nothing if it
    returned nothing; every other slot is as before; the modifier runs
    once, on the old slot. *)
Theorem modifyInAttributes_lookup {W} k k' a
    (modify : option T -> Eff W (option T)) (w : W) :
  tryGetInAttributes k' (fst (modifyInAttributes k a modify w))
  = (if equals k' (AKind k)
     then fst (modify (tryGetInAttributes k a) w)
     else tryGetInAttributes k' a) /\
  snd (modifyInAttributes k a modify w)
  = snd (modify (tryGetInAttributes k a) w).
Proof.
  unfold modifyInAttributes, bindE, retE.
  destruct (modify (tryGetInAttributes k a) w) as [[v|] w'] eqn:E; simpl;
    split; try reflexivity; unfold tryGetInAttributes, setInAttributes.
  - rewrite Map_get_set, sameKey_equals. reflexivity.
  - rewrite Map_get_remove, sameKey_equals. reflexivity.
Qed.

(** X2: set and get.  After [setInAttributes] the kind's slot holds the new
    value and every other slot is as before.  A second set under an equal
    kind replaces the value and adds no entry: every kind reads what it
    reads after a single set of the last value.  Setting the very value the
    slot holds returns the bag as it is. *)
Theorem setInAttributes_lookup_overwrite k1 k2 a v1 v2 :
  equals k2 (AKind k1) = true ->
  (forall k', tryGetInAttributes k' (setInAttributes k1 a v1)
              = if equals k' (AKind k1) then Some v1 else tryGetInAttributes k' a) /\
  (forall k', tryGetInAttributes k' (setInAttributes k2 (setInAttributes k1 a v1) v2)
              = tryGetInAttributes k' (setInAttributes k2 a v2)) /\
  length (setInAttributes k2 (setInAttributes k1 a v1) v2)
  = length (setInAttributes k1 a v1) /\
  tryGetInAttributes k1 (setInAttributes k2 (setInAttributes k1 a v1) v2) = Some v2 /\
  (forall k0 v0, Map_entry k1 a = Some (k0, v0) -> strictEquals v0 v1 = true ->
                 setInAttributes k1 a v1 = a).
Proof.
  intros Heq. rewrite <- sameKey_equals in Heq.
  unfold tryGetInAttributes, setInAttributes.
  split; [|split; [|split; [|split]]].
  - intros k'. now rewrite Map_get_set, sameKey_equals.
  - intros k'. rewrite !Map_get_set.
    destruct (sameKey k' k2) eqn:E; [reflexivity|].
    assert (E1 : sameKey k' k1 = false).
    { rewrite (sameKey_sym k' k1), <- (sameKey_trans_l _ _ k' Heq), sameKey_sym.
      exact E. }
    now rewrite E1.
  - apply length_Map_set_present. rewrite Map_get_set, Heq. discriminate.
  - rewrite Map_get_set. now rewrite sameKey_sym, Heq.
  - intros k0 v0. apply Map_set_same_value.
Qed.

(** X3: the empty bag is neutral.  Putting an empty bag anywhere into the
    sequence changes nothing of what [combineTypeAttributes] returns. *)
Theorem combineTypeAttributes_empty_bag (pre post : list (TypeAttributes T)) :
  Forall (fun b => wellFormed b = true) post ->
  combineTypeAttributes (pre ++ emptyTypeAttributes :: post)
  = combineTypeAttributes (pre ++ post).
Proof.
  intros Hwf. destruct pre as [|first pre]; simpl.
  - destruct post as [|b rest]; [reflexivity|].
    inversion Hwf as [|? ? Hb _]; subst.
    pose proof (merge_into_empty (@combineMerger T) b Hb) as Hmerge.
    unfold Map_mergeWith, emptyTypeAttributes in *. cbn [fold_left] in *.
    now rewrite Hmerge.
  - unfold Map_mergeWith. rewrite !fold_left_app. reflexivity.
Qed.

(** X4: merging in stages.  Merging a sequence of bags is merging its
    front part and then merging the result with the rest; a throw in the
    front part is the throw of the whole. *)
Theorem combineTypeAttributes_in_stages (first : TypeAttributes T)
    (front back : list (TypeAttributes T)) :
  combineTypeAttributes (first :: front ++ back)
  = (merged <- combineTypeAttributes (first :: front) ;;
     combineTypeAttributes (merged :: back))%result.
Proof.
  cbn [combineTypeAttributes]. unfold Map_mergeWith. rewrite fold_left_app.
  assert (H : forall acc : Result (TypeAttributes T),
            fold_left (fun acc iter => fold_left (mergeIntoMap (@combineMerger T)) iter acc)
                      back acc
            = (merged <- acc ;;
               fold_left (fun acc iter =>
                            fold_left (mergeIntoMap (@combineMerger T)) iter acc)
                         back (Ok merged))%result).
  { intros [merged|msg]; [reflexivity|apply fold_iters_thrown]. }
  apply H.
Qed.

(** X5: nothing lost, nothing made up.  When the merge returns, the result
    has a value for a kind exactly when one of the bags has. *)
Theorem combineTypeAttributes_kinds (bags : list (TypeAttributes T)) r k :
  Forall (fun b => wellFormed b = true) bags ->
  combineTypeAttributes bags = Ok r ->
  (tryGetInAttributes k r = None <->
   forall bag, In bag bags -> tryGetInAttributes k bag = None).
Proof.
  intros Hwf Hr.
  pose proof (combineTypeAttributes_slots Hwf) as H. rewrite Hr in H.
  specialize (H k). unfold tryGetInAttributes.
  assert (Hentries : entriesOf k bags = [] <->
                     forall bag, In bag bags -> Map_get k bag = None).
  { unfold entriesOf, entryList, Map_get. clear. induction bags as [|b rest IH]; simpl.
    - split; [intros _ bag []|reflexivity].
    - destruct (Map_entry k b) as [e|] eqn:Eb; simpl.
      + split; [discriminate|]. intros Hall.
        specialize (Hall b (or_introl eq_refl)). rewrite Eb in Hall. discriminate.
      + rewrite IH. split.
        * intros Hall bag [<-|Hin]; [now rewrite Eb|now apply Hall].
        * intros Hall bag Hin. apply Hall. now right. }
  rewrite <- Hentries. unfold combinedValue in H.
  destruct (entriesOf k bags) as [|[k0 v0] rest].
  - injection H as H. rewrite <- H. tauto.
  - split; [|discriminate]. intros Hnone. rewrite Hnone in H.
    destruct (fold_left _ rest (Ok v0)); discriminate.
Qed.

(** X6: no collision, no throw.  When no kind is held by two of the bags,
    [combineTypeAttributes] returns, also for kinds that cannot be
    combined, and every slot holds the value of the one bag that has it. *)
Theorem combineTypeAttributes_disjoint (bags : list (TypeAttributes T)) :
  Forall (fun b => wellFormed b = true) bags ->
  (forall k, length (entriesOf k bags) <= 1) ->
  exists r,
    combineTypeAttributes bags = Ok r /\
    forall k, tryGetInAttributes k r = option_map snd (hd_error (entriesOf k bags)).
Proof.
  intros Hwf Hone.
  pose proof (combineTypeAttributes_slots Hwf) as H.
  assert (Hvalue : forall k, combinedValue k bags
                             = Ok (option_map snd (hd_error (entriesOf k bags)))).
  { intros k. specialize (Hone k). unfold combinedValue.
    destruct (entriesOf k bags) as [|[k0 v0] [|e rest]]; simpl in *;
      [reflexivity|reflexivity|lia]. }
  destruct (combineTypeAttributes bags) as [r|msg].
  - exists r. split; [reflexivity|]. intros k. specialize (H k).
    rewrite Hvalue in H. injection H as H. now rewrite H.
  - destruct H as [k H]. rewrite Hvalue in H. discriminate.
Qed.

End AttributeLaws.

(* ===================================================================== *)
(** * Further properties of the C++ renderer *)
(* ===================================================================== *)

Section RendererLaws.

Variable _namespaceName : string.

Lemma nullableFromUnion_In members t :
  nullableFromUnion members = Some t -> In t members.
Proof.
  unfold nullableFromUnion, removeNullFromUnion.
  destruct (negb (existsb isNull members)); [discriminate|].
  destruct (filter _ members) as [|t0 [|t1 r]] eqn:Ef; try discriminate.
  intros H. injection H as <-.
  assert (Hin : In t0 (filter (fun m => negb (isNull m)) members))
    by (rewrite Ef; now left).
  apply filter_In in Hin. tauto.
Qed.

Lemma typeSize_member t members :
  In t members -> typeSize t <= list_sum (map typeSize members).
Proof.
  induction members as [|m ms IH]; [intros []|].
  simpl. intros [->|Hin]; [lia|]. specialize (IH Hin). lia.
Qed.

Lemma cppType_plain : forall n t inJ,
  typeSize t < n -> hasAnnotation (cppType _namespaceName t inJ false) = false.
Proof.
  induction n as [|n IH]; intros t inJ Hsize; [lia|].
  destruct t; simp cppType; try reflexivity.
  - destruct inJ; reflexivity.
  - destruct inJ; reflexivity.
  - simpl in *. rewrite IH by lia. reflexivity.
  - destruct inJ; reflexivity.
  - simpl in *. rewrite IH by lia. reflexivity.
  - rewrite <- cppType_equation_10, cppType_union.
    destruct (nullableFromUnion members) as [nullable|] eqn:E.
    + pose proof (typeSize_member _ _ (nullableFromUnion_In _ E)) as Hle.
      simpl in *. rewrite IH by lia. reflexivity.
    + destruct inJ; reflexivity.
Qed.

Lemma existsb_intersperse {A} (f : A -> bool) sep (l : list A) :
  f sep = false -> Forall (fun x => f x = false) l ->
  existsb f (intersperse sep l) = false.
Proof.
  intros Hsep. induction 1 as [|x rest Hx Hrest IH]; [reflexivity|].
  destruct rest as [|y rest]; simpl in *.
  - now rewrite Hx.
  - rewrite Hx, Hsep. exact IH.
Qed.

Lemma cppTypeInOptional_plain nonNulls inJ :
  hasAnnotation (cppTypeInOptional _namespaceName nonNulls inJ false) = false.
Proof.
  destruct (Nat.eq_dec (length nonNulls) 1) as [Hone|Hmore].
  - destruct nonNulls as [|t [|t' rest]]; try discriminate.
    simpl. apply cppType_plain with (n := S (typeSize t)). lia.
  - rewrite cppTypeInOptional_variant by exact Hmore. simpl.
    rewrite existsb_intersperse; [reflexivity|reflexivity|].
    apply Forall_forall. intros x Hin. apply in_map_iff in Hin.
    destruct Hin as [t [<- _]]. apply cppType_plain with (n := S (typeSize t)). lia.
Qed.

Variable utf16StringEscape : string -> string.

Lemma Forall_loopLines {A S} (P : SourceLine -> Prop) (next : S -> A -> S)
    (lines : S -> A -> nat -> list SourceLine) :
  (forall s x i, Forall P (lines s x i)) ->
  forall l s i, Forall P (loopLines next lines l s i).
Proof.
  intros Hlines. induction l as [|x rest IH]; intros s i; simpl.
  - constructor.
  - apply Forall_app. split; [apply Hlines|apply IH].
Qed.

Lemma emitClassFromJsonProperty_plain name json t :
  exists parts,
    Appends (emitClassFromJsonProperty _namespaceName utf16StringEscape name json t)
            tt (fun i => [Line i parts]) /\
    existsb hasAnnotation parts = false.
Proof.
  assert (Hplain : hasAnnotation (cppType _namespaceName t true false) = false)
    by (apply cppType_plain with (n := S (typeSize t)); lia).
  unfold emitClassFromJsonProperty.
  destruct t; cbn [kind String.eqb Ascii.eqb Bool.eqb orb];
    try (eexists; split; [apply Appends_emitLine|];
         cbn [existsb hasAnnotation ourQualifier orb];
         rewrite ?Hplain; reflexivity).
  destruct (removeNullFromUnion members) as [hasNull nonNulls].
  destruct hasNull; eexists; (split; [apply Appends_emitLine|]);
    cbn [existsb hasAnnotation ourQualifier orb];
    rewrite ?Hplain, ?cppTypeInOptional_plain; reflexivity.
Qed.

Lemma classFunctions_plain c className i :
  Forall (fun l => lineHasAnnotation l = false)
         (linesOf (emitClassFunctions _namespaceName utf16StringEscape c className) i).
Proof.
  rewrite (Appends_linesOf i (emitClassFunctions_lines _namespaceName
                                utf16StringEscape c className)).
  constructor; [reflexivity|]. apply Forall_app. split.
  - unfold emitClassFromJsonBody, forEachProperty.
    set (emitProp := fun (_ : unit) p =>
           emitClassFromJsonProperty _namespaceName utf16StringEscape
             (propertyName p) (jsonName p) (propertyType p)).
    assert (Hstep : forall s x, Appends (emitProp s x) tt (linesOf (emitProp s x))).
    { intros [] x.
      destruct (emitClassFromJsonProperty_plain (propertyName x) (jsonName x)
                  (propertyType x)) as [parts [Hp _]].
      exact (Appends_own_lines Hp). }
    pose proof (@Appends_forEach Property unit emitProp (fun _ _ => tt)
                  (fun s p => linesOf (emitProp s p)) Hstep (properties c) tt) as H.
    rewrite (Appends_linesOf (S i) H).
    apply Forall_loopLines. intros [] x i0.
    destruct (emitClassFromJsonProperty_plain (propertyName x) (jsonName x)
                (propertyType x)) as [parts [Hp Hplain]].
    unfold emitProp. rewrite (Appends_linesOf i0 Hp).
    constructor; [exact Hplain|constructor].
  - repeat (constructor; [try reflexivity|]); [|constructor].
    unfold specToJsonParts, lineHasAnnotation.
    destruct (properties c) as [|p rest]; [reflexivity|].
    cbn [existsb hasAnnotation orb].
    assert (Hargs : forall l : list Property,
              existsb hasAnnotation
                (concat (intersperse [SText ", "]
                           (map (specPairParts utf16StringEscape) l))) = false).
    { clear. intros l. destruct l as [|q l]; [reflexivity|].
      revert q. induction l as [|q' l IH]; intros q; [reflexivity|].
      change (intersperse [SText ", "]
                (map (specPairParts utf16StringEscape) (q :: q' :: l)))
        with (specPairParts utf16StringEscape q :: [SText ", "]
              :: intersperse [SText ", "]
                   (map (specPairParts utf16StringEscape) (q' :: l))).
      cbn [concat]. rewrite !existsb_app, IH. reflexivity. }
    rewrite Hargs. reflexivity.
Qed.

Lemma unionFunctions_plain members i :
  Forall (fun l => lineHasAnnotation l = false)
         (linesOf (emitUnionFunctions _namespaceName members) i).
Proof.
  rewrite (Appends_linesOf i (emitUnionFunctions_lines _namespaceName members)).
  generalize (snd (removeNullFromUnion members)). intros nonNulls.
  assert (Hheader : hasAnnotation
            (cppTypeInOptional _namespaceName nonNulls true false) = false)
    by apply cppTypeInOptional_plain.
  constructor; [cbn [lineHasAnnotation existsb hasAnnotation orb]; now rewrite Hheader|].
  apply Forall_app. split; [|apply Forall_app; split; [|apply Forall_app; split]].
  - rewrite (Appends_linesOf (S i) (emitUnionFromJsonBody_lines _namespaceName nonNulls)).
    apply Forall_app. split; [|repeat constructor].
    apply Forall_loopLines. intros s x i0.
    destruct (find _ nonNulls) as [t|]; [|constructor].
    repeat constructor. cbn [lineHasAnnotation existsb hasAnnotation orb].
    rewrite (@cppType_plain (S (typeSize t)) t true) by lia. reflexivity.
  - repeat (constructor; [try reflexivity|]); [|constructor].
    cbn [lineHasAnnotation existsb hasAnnotation orb]. now rewrite Hheader.
  - rewrite (Appends_linesOf (S (S i))
               (emitUnionSwitchBody_lines _namespaceName nonNulls)).
    apply Forall_app. split; [|repeat constructor].
    apply Forall_loopLines. intros s x i0.
    repeat constructor. cbn [lineHasAnnotation existsb hasAnnotation orb].
    rewrite (@cppType_plain (S (typeSize x)) x true) by lia. reflexivity.
  - repeat constructor.
Qed.

(** X7: issue annotations stay out of the conversion code.  Without issues
    asked for, the C++ type of no node carries an issue annotation, however
    deep an [any] or [null] sits in it, and so no line of the [from_json]
    and [to_json] emitted for a class or a union does; with issues asked
    for, [any] and [null] are annotated. *)
Theorem conversion_code_has_no_annotations (t : TypeNode)
    (nonNulls members : list TypeNode) (c : ClassType) (className : Name)
    (inJsonNamespace : bool) (i : nat) :
  hasAnnotation (cppType _namespaceName t inJsonNamespace false) = false /\
  hasAnnotation (cppTypeInOptional _namespaceName nonNulls inJsonNamespace false)
  = false /\
  Forall (fun l => lineHasAnnotation l = false)
         (linesOf (emitClassFunctions _namespaceName utf16StringEscape c className) i) /\
  Forall (fun l => lineHasAnnotation l = false)
         (linesOf (emitUnionFunctions _namespaceName members) i) /\
  hasAnnotation (cppType _namespaceName anyType inJsonNamespace true) = true /\
  hasAnnotation (cppType _namespaceName nullType inJsonNamespace true) = true.
Proof.
  split; [apply cppType_plain with (n := S (typeSize t)); lia|].
  split; [apply cppTypeInOptional_plain|].
  split; [apply classFunctions_plain|].
  split; [apply unionFunctions_plain|].
  split; simp cppType; reflexivity.
Qed.

Lemma Appends_emitBlock_semicolon {A} (line : Sourcelike) (f : Render A) a l :
  Appends f a l ->
  Appends (emitBlock line true f) a
          (fun i => Line i [line; SText " {"] :: l (S i) ++ [Line i [SText "};"]]).
Proof.
  intros Hf. unfold emitBlock.
  eapply Appends_ext;
    [|eapply Appends_bind;
       [apply Appends_emitLine
       |eapply Appends_bind;
          [apply Appends_indent, Hf
          |eapply Appends_bind; [apply Appends_emitLine|apply Appends_ret]]]].
  intros i. reflexivity.
Qed.

Lemma cppType_outside_namespace (other : string) : forall n t withIssues,
  typeSize t < n ->
  cppType other t false withIssues = cppType _namespaceName t false withIssues.
Proof.
  induction n as [|n IH]; intros t withIssues Hsize; [lia|].
  destruct t; simp cppType; try reflexivity.
  - simpl in *. rewrite IH by lia. reflexivity.
  - simpl in *. rewrite IH by lia. reflexivity.
  - rewrite <- !cppType_equation_10, !cppType_union.
    destruct (nullableFromUnion members) as [nullable|] eqn:E; [|reflexivity].
    pose proof (typeSize_member _ _ (nullableFromUnion_In _ E)) as Hle.
    simpl in *. rewrite IH by lia. reflexivity.
Qed.

Lemma Appends_forEach_unit {A} (f : unit -> A -> Render unit)
    (lines : A -> nat -> list SourceLine) :
  (forall x, Appends (f tt x) tt (lines x)) ->
  forall l, Appends (forEach f l tt) tt (fun i => flat_map (fun x => lines x i) l).
Proof.
  intros Hf. induction l as [|x rest IH]; simpl.
  - apply Appends_ret.
  - eapply Appends_bind; [apply Hf|apply IH].
Qed.

Lemma emitClass_lines (ns : string) c className :
  Appends (emitClass ns c className) tt
    (fun i =>
       Line i [SArray [SText "struct "; SName className]; SText " {"]
       :: map (fun p => Line (S i) [cppType ns (propertyType p) false true;
                                    SText " "; SName (propertyName p); SText ";"])
              (properties c)
       ++ [Line i [SText "};"]]).
Proof.
  unfold emitClass, forEachProperty.
  eapply Appends_ext;
    [|apply Appends_emitBlock_semicolon,
        (@Appends_forEach_unit Property _
           (fun p i => [Line i [cppType ns (propertyType p) false true;
                                SText " "; SName (propertyName p); SText ";"]]))].
  - intros i. cbn beta. f_equal.
  - intros x. apply Appends_emitLine.
Qed.

(** X8: the declaration of a class.  [emitClass] emits a [struct] block
    closed by a brace and a semicolon, with one field per property in
    declared order, typed by the C++ type of the property with issues
    annotated; a class without properties gives an empty block.  The
    text does not depend on the namespace option. *)
Theorem emitClass_declaration (c : ClassType) (className : Name) :
  Appends (emitClass _namespaceName c className) tt
    (fun i =>
       Line i [SArray [SText "struct "; SName className]; SText " {"]
       :: map (fun p => Line (S i) [cppType _namespaceName (propertyType p) false true;
                                    SText " "; SName (propertyName p); SText ";"])
              (properties c)
       ++ [Line i [SText "};"]]) /\
  (forall i, length (linesOf (emitClass _namespaceName c className) i)
             = length (properties c) + 2) /\
  (forall other st, emitClass other c className st
                    = emitClass _namespaceName c className st).
Proof.
  split; [apply emitClass_lines|]. split.
  - intros i. rewrite (Appends_linesOf i (emitClass_lines _namespaceName c className)).
    simpl. rewrite length_app, length_map. simpl. lia.
  - intros other st.
    rewrite (emitClass_lines other c className st),
            (emitClass_lines _namespaceName c className st).
    assert (Hfields :
      map (fun p => Line (S (indentation st))
                      [cppType other (propertyType p) false true;
                       SText " "; SName (propertyName p); SText ";"])
          (properties c)
      = map (fun p => Line (S (indentation st))
                        [cppType _namespaceName (propertyType p) false true;
                         SText " "; SName (propertyName p); SText ";"])
            (properties c)).
    { apply map_ext. intros p.
      rewrite (@cppType_outside_namespace other (S (typeSize (propertyType p))))
        by lia.
      reflexivity. }
    now rewrite Hfields.
Qed.

(** X9: a union alternative round-trips by its kind.  Take a member that
    is the first of its kind among the members other than null and, if it
    is a map, has no class member beside it.  Then on any JSON of the shape
    a value of that kind encodes to, the emitted [from_json] decodes that
    very member. *)
Theorem union_alternative_round_trip (nonNulls : list TypeNode) (t : TypeNode)
    (j : json) :
  find (fun t' => kind t' =? kind t) nonNulls = Some t ->
  encodedShape (kind t) j = true ->
  (kind t = "map" -> find (fun t' => kind t' =? "class") nonNulls = None) ->
  specDecode nonNulls j = Ok t /\
  forall i,
    runUnionFromJson (linesOf (emitUnionFromJsonBody _namespaceName nonNulls) i) j
    = Some (Ok (cppType _namespaceName t true false)).
Proof.
  intros Hfirst Hshape Hmap.
  assert (Hdecode : specDecode nonNulls j = Ok t).
  { unfold specDecode, specDecodeBranch, specDecodeBranches, specDecodeBranchesOf,
      predicateTable.
    cbn [flat_map entryKind].
    destruct t; cbn [kind] in Hfirst, Hshape, Hmap; try discriminate Hshape;
      try (rewrite (Hmap eq_refl)); rewrite Hfirst;
      destruct j; try discriminate Hshape;
      repeat match goal with
             | |- context [find ?f nonNulls] => destruct (find f nonNulls)
             end;
      reflexivity. }
  split; [exact Hdecode|].
  intros i. rewrite runUnionFromJson_specDecode. now rewrite Hdecode.
Qed.

Lemma find_member_of_object (members : list (string * json)) key v :
  NoDup (map fst members) -> In (key, v) members ->
  find (fun m => fst m =? key) members = Some (key, v).
Proof.
  induction members as [|[k0 v0] rest IH]; [intros _ []|].
  simpl. intros Hnodup Hin. inversion Hnodup as [|? ? Hfresh Hrest]; subst.
  destruct Hin as [Heq|Hin].
  - injection Heq as -> ->. now rewrite String.eqb_refl.
  - destruct (k0 =? key) eqn:E.
    + apply String.eqb_eq in E. subst k0. exfalso. apply Hfresh.
      apply in_map_iff. now exists (key, v).
    + now apply IH.
Qed.

Lemma runClassToJson_object (literal : string -> string) (field : Name -> json) c i :
  runClassToJson literal (linesOf (emitClassToJsonBody utf16StringEscape c) i) field
  = Some (JObject (map (fun p => (literal (utf16StringEscape (jsonName p)),
                                  field (propertyName p)))
                       (properties c))).
Proof.
  rewrite (Appends_linesOf i (emitClassToJsonBody_line utf16StringEscape c)).
  unfold specToJsonParts.
  destruct (properties c) as [|p rest]; [reflexivity|].
  unfold runClassToJson. rewrite !String.eqb_refl. cbn [andb].
  rewrite pairsOfArgs_pairParts. cbn [option_map]. now rewrite map_map.
Qed.

(** X10: a class round-trips through its own conversion code.  The
    emitted [to_json] builds the object that has, for every property in
    declared order, the escaped key paired with what the field encodes to.
    Where the keys denote different strings, every property's key holds
    its field's value there; where, further, every field that is read
    through [get<T>()] coerces at the type [T] its read names, the emitted
    [from_json] returns, field after field in declared order, the coerced
    values: an untyped field the JSON value as it is, an optional field
    that encoded to null the absent optional.  A strict field that does
    not coerce makes [from_json] throw. *)
Theorem class_round_trip (c : ClassType) (V : Type)
    (get : Sourcelike -> json -> Result V) (literal : string -> string)
    (field : Name -> json) :
  let object :=
    JObject (map (fun p => (literal (utf16StringEscape (jsonName p)),
                            field (propertyName p)))
                 (properties c)) in
  let read := fun p => specPropertyRead _namespaceName (propertyType p) in
  let body := linesOf (emitClassFromJsonBody _namespaceName utf16StringEscape c) in
  (forall i, runClassToJson literal
               (linesOf (emitClassToJsonBody utf16StringEscape c) i) field
             = Some object) /\
  (NoDup (map (fun p => literal (utf16StringEscape (jsonName p))) (properties c)) ->
   (forall p, In p (properties c) ->
      json_at object (literal (utf16StringEscape (jsonName p)))
      = Ok (field (propertyName p))) /\
   (forall decoded : Property -> V,
      (forall p T, In p (properties c) ->
         readType (read p) = Some T ->
         isStrictRead (read p) = true \/ is_null (field (propertyName p)) = false ->
         get T (field (propertyName p)) = Ok (decoded p)) ->
      forall i,
        runClassFromJson get literal (body i) object
        = Some (Ok (map (fun p => (propertyName p,
                                   fieldRead (read p) (field (propertyName p))
                                             (decoded p)))
                        (properties c)))) /\
   (forall p T msg, In p (properties c) ->
      read p = ReadStrict T ->
      get T (field (propertyName p)) = Thrown msg ->
      forall i, exists msg',
        runClassFromJson get literal (body i) object = Some (Thrown msg'))).
Proof.
  intros object read body.
  split; [intros i; apply runClassToJson_object|].
  intros Hnodup.
  assert (Hat : forall p, In p (properties c) ->
            json_find object (literal (utf16StringEscape (jsonName p)))
            = Some (field (propertyName p))).
  { intros p Hin. unfold object, json_find.
    rewrite (@find_member_of_object _ (literal (utf16StringEscape (jsonName p)))
               (field (propertyName p))).
    - reflexivity.
    - now rewrite map_map.
    - apply in_map_iff. now exists p. }
  assert (Hbody : forall i, runClassFromJson get literal (body i) object
            = Some (runReads get literal
                      (map (fun p => (propertyName p,
                                      utf16StringEscape (jsonName p), read p))
                           (properties c)) object)).
  { intros i. unfold runClassFromJson, body.
    rewrite (proj2 (emitClassFromJsonBody_reads _namespaceName utf16StringEscape c) i).
    reflexivity. }
  split; [|split].
  - intros p Hin. unfold json_at. now rewrite (Hat p Hin).
  - intros decoded Hget i. rewrite Hbody. f_equal.
    assert (Hall : forall l, incl l (properties c) ->
              runReads get literal
                (map (fun p => (propertyName p, utf16StringEscape (jsonName p),
                                read p)) l) object
              = Ok (map (fun p => (propertyName p,
                                   fieldRead (read p) (field (propertyName p))
                                             (decoded p))) l)).
    { induction l as [|p rest IH]; intros Hincl; [reflexivity|].
      assert (Hin : In p (properties c)) by (apply Hincl; now left).
      cbn [map runReads].
      rewrite IH by (intros q Hq; apply Hincl; now right).
      assert (Hread : runRead get literal (read p)
                        (utf16StringEscape (jsonName p)) object
                      = Ok (fieldRead (read p) (field (propertyName p)) (decoded p))).
      { pose proof (Hget p) as Hp. specialize (Hat p Hin).
        destruct (read p) as [T| |T];
          unfold runRead, get_optional, get_untyped, json_at, optional_from_json,
            fieldRead;
          rewrite Hat; cbn [bindR].
        - destruct (is_null (field (propertyName p))) eqn:En; [reflexivity|].
          now rewrite (Hp T Hin eq_refl (or_intror eq_refl)).
        - reflexivity.
        - now rewrite (Hp T Hin eq_refl (or_introl eq_refl)). }
      rewrite Hread. reflexivity. }
    apply Hall, incl_refl.
  - intros p T msg Hin Hstrict Hget i. rewrite Hbody.
    assert (Hall : forall l, In p l ->
              exists msg',
                runReads get literal
                  (map (fun p => (propertyName p, utf16StringEscape (jsonName p),
                                  read p)) l) object
                = Thrown msg').
    { induction l as [|q rest IH]; intros Hl; [destruct Hl|].
      cbn [map runReads]. destruct Hl as [->|Hl].
      - rewrite Hstrict. unfold runRead, json_at. rewrite (Hat p Hin).
        cbn [bindR]. rewrite Hget. now exists msg.
      - destruct (IH Hl) as [msg' Hrest]. rewrite Hrest.
        destruct (runRead get literal (read q) _ object) as [x|m];
          cbn [bindR]; eexists; reflexivity. }
    destruct (Hall (properties c) Hin) as [msg' Hrun].
    exists msg'. now rewrite Hrun.
Qed.

(** X11: an optional value in JSON.  [get_optional] gives the absent
    optional for a missing key as for a key that holds null.  An optional
    written by the emitted [to_json] and read by the emitted [from_json]
    comes back as it was, provided the value held round-trips and never
    encodes to null; a value that does encode to null comes back
    absent. *)
Theorem optional_round_trip (V : Type) (get : Sourcelike -> json -> Result V)
    (to_json : V -> json) (T : Sourcelike) (j : json) (property : string) :
  (json_find j property = None \/ json_find j property = Some JNull ->
   get_optional get T j property = Ok None) /\
  ((forall x, is_null (to_json x) = false) ->
   (forall x, get T (to_json x) = Ok x) ->
   forall opt, optional_from_json get T (optional_to_json to_json opt) = Ok opt) /\
  (forall x, to_json x = JNull ->
             optional_from_json get T (optional_to_json to_json (Some x)) = Ok None).
Proof.
  split; [|split].
  - unfold get_optional, json_at, optional_from_json.
    intros [H|H]; rewrite H; reflexivity.
  - intros Hnotnull Hget [x|]; unfold optional_from_json, optional_to_json.
    + rewrite Hnotnull, Hget. reflexivity.
    + reflexivity.
  - intros x Hnull. unfold optional_from_json, optional_to_json.
    now rewrite Hnull.
Qed.

(** X12: a union with nothing to decode.  Where no member other than null
    has one of the seven kinds of [functionForKind], as in a union of no
    members, the body of the emitted [from_json] is the lone line
    [else throw "Could not deserialize";] with no [if] before it. *)
Theorem union_from_json_without_branches (nonNulls : list TypeNode) (i : nat) :
  (forall t, In t nonNulls -> ~ In (kind t) (map fst functionForKind)) ->
  linesOf (emitUnionFromJsonBody _namespaceName nonNulls) i
  = [Line i [SText elseThrowLine]].
Proof using _namespaceName.
  intros Hnone.
  rewrite (Appends_linesOf i (emitUnionFromJsonBody_lines _namespaceName nonNulls)).
  unfold functionForKind in Hnone |- *. cbn [loopLines fst snd map] in Hnone |- *.
  repeat match goal with
         | |- context [find (fun t => kind t =? ?k) nonNulls] =>
             let H := fresh "Hfind" in
             assert (H : find (fun t => kind t =? k) nonNulls = None)
               by (apply find_no_match; intros t Hin; apply String.eqb_neq;
                   intros E; apply (Hnone t Hin); rewrite E; simpl; auto 10);
             rewrite H; clear H
         end.
  reflexivity.
Qed.

(** X13: the case labels of the switch.  The emitted [to_json] of a union
    has one case per member other than null, labelled 0, 1, 2, ... in
    member order; no label occurs twice. *)
Theorem union_to_json_case_labels (nonNulls : list TypeNode) (i : nat) :
  exists cases,
    casesOfLines (linesOf (emitUnionSwitchBody _namespaceName nonNulls) i)
    = Some (cases, true) /\
    map fst cases = map toString (seq 0 (length nonNulls)) /\
    length cases = length nonNulls /\
    NoDup (map fst cases).
Proof.
  rewrite (Appends_linesOf i (emitUnionSwitchBody_lines _namespaceName nonNulls)).
  rewrite casesOfLines_loop. eexists. split; [reflexivity|].
  assert (Hlabels : forall (A : Type) (l : list A) n,
            map fst (List.combine (map toString (seq n (length l))) l)
            = map toString (seq n (length l))).
  { intros A l. induction l as [|x rest IH]; intros n; [reflexivity|].
    simpl. now rewrite IH. }
  assert (Hfst :
    map fst (List.combine (map toString (seq 0 (length nonNulls)))
                          (map (fun t => cppType _namespaceName t true false) nonNulls))
    = map toString (seq 0 (length nonNulls))).
  { pose proof (Hlabels _ (map (fun t => cppType _namespaceName t true false) nonNulls) 0)
      as H.
    now rewrite length_map in H. }
  split; [exact Hfst|]. split.
  - rewrite length_combine, !length_map, length_seq. lia.
  - rewrite Hfst. clear Hfst. generalize (seq_NoDup (length nonNulls) 0).
    generalize (seq 0 (length nonNulls)). intros labels.
    induction 1 as [|n rest Hfresh _ IH]; simpl; [constructor|].
    constructor; [|exact IH].
    intros Hin. apply in_map_iff in Hin. destruct Hin as [m [Heq Hm]].
    apply toString_inj in Heq. subst m. contradiction.
Qed.

(** X14: a class read from something that is no object.  On a JSON value
    that is not an object the emitted [from_json] throws exactly when the
    class has a strict property; a class of untyped and optional properties
    only is read from any such value, every field empty or absent. *)
Theorem class_from_non_object (c : ClassType) (V : Type)
    (get : Sourcelike -> json -> Result V) (literal : string -> string)
    (j : json) :
  is_object j = false ->
  (forall i,
     runClassFromJson get literal
       (linesOf (emitClassFromJsonBody _namespaceName utf16StringEscape c) i) j
     = Some (runReads get literal
               (specClassReads _namespaceName utf16StringEscape c) j)) /\
  isThrown (runReads get literal
              (specClassReads _namespaceName utf16StringEscape c) j)
  = existsb (fun p => isStrictRead (specPropertyRead _namespaceName (propertyType p)))
            (properties c) /\
  (existsb (fun p => isStrictRead (specPropertyRead _namespaceName (propertyType p)))
           (properties c) = false ->
   runReads get literal (specClassReads _namespaceName utf16StringEscape c) j
   = Ok (map (fun p =>
                (propertyName p,
                 match specPropertyRead _namespaceName (propertyType p) with
                 | ReadOptional _ => FieldOptional None
                 | _ => FieldUntyped JNull
                 end))
             (properties c))).
Proof.
  intros Hobject.
  assert (Hfind : forall key, json_find j key = None)
    by (intros key; destruct j; try reflexivity; discriminate).
  split; [|split].
  - intros i. unfold runClassFromJson.
    now rewrite (proj2 (emitClassFromJsonBody_reads _namespaceName
                          utf16StringEscape c) i).
  - unfold specClassReads. induction (properties c) as [|p rest IH]; [reflexivity|].
    cbn [map runReads existsb].
    destruct (specPropertyRead _namespaceName (propertyType p)) as [T| |T];
      unfold runRead, get_optional, get_untyped, json_at; rewrite Hfind;
      cbn [bindR isStrictRead orb isThrown]; try reflexivity;
      rewrite <- IH; destruct (runReads get literal _ j); reflexivity.
  - unfold specClassReads. induction (properties c) as [|p rest IH]; [reflexivity|].
    cbn [map runReads existsb]. intros Hnone.
    apply orb_false_iff in Hnone. destruct Hnone as [Hp Hrest].
    rewrite (IH Hrest).
    destruct (specPropertyRead _namespaceName (propertyType p)) as [T| |T];
      try discriminate Hp;
      unfold runRead, get_optional, get_untyped; rewrite Hfind; reflexivity.
Qed.

End RendererLaws.

(* ===================================================================== *)
(** * The further properties at sample inputs *)
(* ===================================================================== *)

Lemma setInAttributes_lookup_overwrite_witness :
  equals descriptionTypeAttributeKind
         (AKind (newTypeAttributeKind "description" None)) = true /\
  length (setInAttributes descriptionTypeAttributeKind
            (setInAttributes (newTypeAttributeKind "description" None)
                             emptyTypeAttributes ["old"]) ["new"])
  = length (setInAttributes (newTypeAttributeKind "description" None)
                            emptyTypeAttributes ["old"]) /\
  tryGetInAttributes (newTypeAttributeKind "description" None)
    (setInAttributes descriptionTypeAttributeKind
       (setInAttributes (newTypeAttributeKind "description" None)
                        emptyTypeAttributes ["old"]) ["new"])
  = Some ["new"].
Proof.
  split; [reflexivity|].
  exact (conj
           (proj1 (proj2 (proj2 (@setInAttributes_lookup_overwrite (list string) _
                                   (newTypeAttributeKind "description" None)
                                   descriptionTypeAttributeKind emptyTypeAttributes
                                   ["old"] ["new"] eq_refl))))
           (proj1 (proj2 (proj2 (proj2 (@setInAttributes_lookup_overwrite
                                   (list string) _
                                   (newTypeAttributeKind "description" None)
                                   descriptionTypeAttributeKind emptyTypeAttributes
                                   ["old"] ["new"] eq_refl)))))).
Defined.

Lemma combineTypeAttributes_empty_bag_witness :
  Forall (fun b => wellFormed b = true) sampleBags /\
  combineTypeAttributes ([] ++ emptyTypeAttributes :: sampleBags)
  = combineTypeAttributes ([] ++ sampleBags).
Proof.
  assert (Hwf : Forall (fun b => wellFormed b = true) sampleBags)
    by (repeat (constructor; [vm_compute; reflexivity|]); constructor).
  exact (conj Hwf (combineTypeAttributes_empty_bag [] Hwf)).
Defined.

Lemma combineTypeAttributes_kinds_witness :
  Forall (fun b => wellFormed b = true) sampleBags /\
  combineTypeAttributes sampleBags
  = Ok [(descriptionTypeAttributeKind, ["a"; "b"])] /\
  (tryGetInAttributes (newTypeAttributeKind "origin" None)
     [(descriptionTypeAttributeKind, ["a"; "b"])] = None <->
   forall bag, In bag sampleBags ->
               tryGetInAttributes (newTypeAttributeKind "origin" None) bag = None).
Proof.
  assert (Hwf : Forall (fun b => wellFormed b = true) sampleBags)
    by (repeat (constructor; [vm_compute; reflexivity|]); constructor).
  assert (Hr : combineTypeAttributes sampleBags
               = Ok [(descriptionTypeAttributeKind, ["a"; "b"])])
    by (vm_compute; reflexivity).
  exact (conj Hwf (conj Hr (combineTypeAttributes_kinds
                              (newTypeAttributeKind "origin" None) Hwf Hr))).
Defined.

Lemma combineTypeAttributes_disjoint_witness :
  Forall (fun b => wellFormed b = true) sampleDisjointBags /\
  (forall k, length (entriesOf k sampleDisjointBags) <= 1) /\
  exists r,
    combineTypeAttributes sampleDisjointBags = Ok r /\
    forall k, tryGetInAttributes k r
              = option_map snd (hd_error (entriesOf k sampleDisjointBags)).
Proof.
  assert (Hwf : Forall (fun b => wellFormed b = true) sampleDisjointBags)
    by (repeat (constructor; [vm_compute; reflexivity|]); constructor).
  assert (Hone : forall k, length (entriesOf k sampleDisjointBags) <= 1).
  { intros k. unfold sampleDisjointBags, entriesOf, entryList, makeAttributes.
    cbn [flat_map Map_entry].
    destruct (sameKey k sampleUncombinable) eqn:E1;
      destruct (sameKey k (newTypeAttributeKind "origin" None)) eqn:E2;
      cbn; try lia.
    apply sameKey_name in E1. apply sameKey_name in E2.
    rewrite E1 in E2. discriminate E2. }
  exact (conj Hwf (conj Hone (combineTypeAttributes_disjoint Hwf Hone))).
Defined.

Lemma union_alternative_round_trip_witness :
  find (fun t' => kind t' =? kind (arrayType boolType)) sampleUnion
  = Some (arrayType boolType) /\
  encodedShape (kind (arrayType boolType)) (JArray [JBoolean true]) = true /\
  specDecode sampleUnion (JArray [JBoolean true]) = Ok (arrayType boolType).
Proof.
  split; [reflexivity|]. split; [reflexivity|].
  refine (proj1 (@union_alternative_round_trip "quicktype" sampleUnion
                   (arrayType boolType) (JArray [JBoolean true])
                   eq_refl eq_refl _)).
  intros H. discriminate H.
Defined.

Lemma class_round_trip_witness :
  NoDup (map (fun p => jsonName p) (properties sampleClass)) /\
  runClassFromJson sampleGetTyped (fun s => s)
    (linesOf (emitClassFromJsonBody "quicktype" (fun s => s) sampleClass) 1)
    (JObject [("id", JNumberInteger 7); ("extra", JNull); ("label", JString "x")])
  = Some (Ok [(NameToken "id", FieldTyped (JNumberInteger 7));
              (NameToken "extra", FieldUntyped JNull);
              (NameToken "label", FieldOptional (Some (JString "x")))]).
Proof.
  assert (Hnodup : NoDup (map (fun p => jsonName p) (properties sampleClass))).
  { simpl. repeat (constructor; [simpl; intuition discriminate|]). constructor. }
  assert (Hstrict : specPropertyRead "quicktype" integerType
                    = ReadStrict (SText "int64_t")) by reflexivity.
  assert (Huntyped : specPropertyRead "quicktype" anyType = ReadUntyped)
    by reflexivity.
  assert (Hoptional : specPropertyRead "quicktype"
                        (unionType (NameToken "Label") [nullType; stringType])
                      = ReadOptional (SText "std::string")) by reflexivity.
  assert (Hget : forall p T, In p (properties sampleClass) ->
            readType (specPropertyRead "quicktype" (propertyType p)) = Some T ->
            isStrictRead (specPropertyRead "quicktype" (propertyType p)) = true \/
            is_null (sampleField (propertyName p)) = false ->
            sampleGetTyped T (sampleField (propertyName p))
            = Ok (sampleField (propertyName p))).
  { intros p T [<-|[<-|[<-|[]]]]; cbn [propertyType propertyName].
    - rewrite Hstrict. intros HT _. injection HT as <-. reflexivity.
    - rewrite Huntyped. discriminate.
    - rewrite Hoptional. intros HT _. injection HT as <-. reflexivity. }
  split; [exact Hnodup|].
  pose proof (proj1 (proj2 (proj2 (@class_round_trip "quicktype" (fun s => s)
                                     sampleClass json sampleGetTyped (fun s => s)
                                     sampleField) Hnodup))
                (fun p => sampleField (propertyName p)) Hget 1) as H.
  cbn [sampleClass properties map propertyName propertyType jsonName] in H.
  rewrite Hstrict, Huntyped, Hoptional in H. exact H.
Defined.

Lemma optional_round_trip_witness :
  (forall x, is_null (JString x) = false) /\
  (forall x, sampleGetString (SText "std::string") (JString x) = Ok x) /\
  optional_from_json sampleGetString (SText "std::string")
    (optional_to_json JString (Some "text")) = Ok (Some "text") /\
  (json_find (JObject [("label", JNull)]) "label" = Some JNull /\
   get_optional sampleGetString (SText "std::string")
     (JObject [("label", JNull)]) "label" = Ok None).
Proof.
  assert (H1 : forall x, is_null (JString x) = false) by reflexivity.
  assert (H2 : forall x, sampleGetString (SText "std::string") (JString x) = Ok x)
    by reflexivity.
  split; [exact H1|]. split; [exact H2|]. split.
  - exact (proj1 (proj2 (@optional_round_trip string sampleGetString JString
                           (SText "std::string") JNull "label"))
             H1 H2 (Some "text")).
  - split; [reflexivity|].
    exact (proj1 (@optional_round_trip string sampleGetString JString
                    (SText "std::string") (JObject [("label", JNull)]) "label")
             (or_intror eq_refl)).
Defined.

Lemma union_from_json_without_branches_witness :
  (forall t, In t [anyType] -> ~ In (kind t) (map fst functionForKind)) /\
  linesOf (emitUnionFromJsonBody "quicktype" [anyType]) 1
  = [Line 1 [SText elseThrowLine]].
Proof.
  assert (H : forall t, In t [anyType] -> ~ In (kind t) (map fst functionForKind)).
  { intros t [<-|[]]. simpl. intuition discriminate. }
  exact (conj H (@union_from_json_without_branches "quicktype" [anyType] 1 H)).
Defined.

Lemma class_from_non_object_witness :
  is_object (JArray []) = false /\
  isThrown (runReads sampleGet (fun s => s)
              (specClassReads "quicktype" (fun s => s) sampleClass) (JArray []))
  = existsb (fun p => isStrictRead (specPropertyRead "quicktype" (propertyType p)))
            (properties sampleClass).
Proof.
  split; [reflexivity|].
  exact (proj1 (proj2 (@class_from_non_object "quicktype" (fun s => s) sampleClass
                         json sampleGet (fun s => s) (JArray []) eq_refl))).
Defined.
